(** * Packaging of generated files: a shallow embedding of
    src/project_builder.rs, of the packaging part and the start-up template
    check of src/server.rs, and of the response parsing of src/llm_client.rs.

    Text is modelled as a list of Unicode scalar values ([N]); Rust byte
    offsets into a [&str] always fall on character boundaries in this code,
    so character positions stand for them.  The regular expressions of the
    source are embedded through a small backtracking matcher with Rust's
    leftmost-first semantics: the leftmost starting position wins, and among
    the matches starting there the one preferred by greedy quantifiers. *)

From Stdlib Require Import String Ascii Bool Arith Lia NArith List.
Import ListNotations.
Open Scope string_scope.
Open Scope list_scope.

(* ------------------------------------------------------------------ *)
(** ** Text *)

Abbreviation char := N.
Abbreviation str := (list N).

(** Conversion of an ASCII literal into text. *)
Definition t (s : string) : str :=
  map (fun a => N.of_nat (nat_of_ascii a)) (list_ascii_of_string s).

(** Lines joined with a line feed, each line terminated by one. *)
Definition lines (ls : list string) : str :=
  concat (map (fun l => t l ++ [10%N]) ls).

Definition str_eqb (a b : str) : bool :=
  if list_eq_dec N.eq_dec a b then true else false.

Fixpoint starts_with (pre s : str) : bool :=
  match pre, s with
  | [], _ => true
  | c :: pre', d :: s' => N.eqb c d && starts_with pre' s'
  | _ :: _, [] => false
  end.

(** [str::strip_prefix] *)
Definition strip_prefix (pre s : str) : option str :=
  if starts_with pre s then Some (skipn (length pre) s) else None.

Definition ends_with (suf s : str) : bool :=
  starts_with (rev suf) (rev s).

(** Unicode White_Space: the set behind [char::is_whitespace] and the
    [\s] class of the regex crate in its default Unicode mode. *)
Definition is_ws (c : char) : bool :=
  ((9 <=? c) && (c <=? 13))%N || N.eqb c 32 || N.eqb c 133 || N.eqb c 160
  || N.eqb c 5760 || ((8192 <=? c) && (c <=? 8202))%N || N.eqb c 8232
  || N.eqb c 8233 || N.eqb c 8239 || N.eqb c 8287 || N.eqb c 12288.

Fixpoint trim_start (s : str) : str :=
  match s with
  | c :: s' => if is_ws c then trim_start s' else s
  | [] => []
  end.

(** [str::trim] *)
Definition trim (s : str) : str := rev (trim_start (rev (trim_start s))).

(** [str::to_ascii_lowercase] *)
Definition to_ascii_lowercase (s : str) : str :=
  map (fun c => if ((65 <=? c) && (c <=? 90))%N then (c + 32)%N else c) s.

(** [s.replace(from, to)] for a single character [from]. *)
Definition replace_char (from : char) (to : str) (s : str) : str :=
  concat (map (fun c => if N.eqb c from then to else [c]) s).

(** [s.replace("\r\n", "\n")] *)
Fixpoint replace_crlf (s : str) : str :=
  match s with
  | 13%N :: 10%N :: s' => 10%N :: replace_crlf s'
  | c :: s' => c :: replace_crlf s'
  | [] => []
  end.

(** The slice [s[a..b]]. *)
Definition slice (s : str) (a b : nat) : str := firstn (b - a) (skipn a s).

(* ------------------------------------------------------------------ *)
(** ** Regular expressions (regex crate, leftmost-first) *)

Module Regex.

Inductive regex : Type :=
| Cls (p : char -> bool)      (* one character satisfying [p] *)
| Seq (r1 r2 : regex)
| Star (r : regex)            (* greedy [*] *)
| Opt (r : regex)             (* greedy [?] *)
| TextStart                   (* [^] without (?m) *)
| TextEnd                     (* [$] without (?m) *)
| LineStart                   (* [^] under (?m) *)
| LineEnd                     (* [$] under (?m) *)
| Group (r : regex).          (* the capture group of interest *)

Definition capture := option (nat * nat).

(** Backtracking in preference order; the continuation receives the end
    position and the capture.  A [Star] iteration must consume input. *)
Fixpoint mt (r : regex) (s : str) (i : nat) (cap : capture)
    (k : nat -> capture -> option (nat * capture)) : option (nat * capture) :=
  match r with
  | Cls p =>
      match nth_error s i with
      | Some c => if p c then k (S i) cap else None
      | None => None
      end
  | Seq r1 r2 => mt r1 s i cap (fun j cap' => mt r2 s j cap' k)
  | Star r1 =>
      (fix loop (n : nat) (i : nat) (cap : capture) {struct n} :=
         match n with
         | O => k i cap
         | S n' =>
             match mt r1 s i cap
                     (fun j cap' => if Nat.ltb i j then loop n' j cap' else None) with
             | Some x => Some x
             | None => k i cap
             end
         end) (S (length s - i)) i cap
  | Opt r1 =>
      match mt r1 s i cap k with
      | Some x => Some x
      | None => k i cap
      end
  | TextStart => if Nat.eqb i 0 then k i cap else None
  | TextEnd => if Nat.eqb i (length s) then k i cap else None
  | LineStart =>
      match i with
      | O => k i cap
      | S i' => if N.eqb (nth i' s 0%N) 10 then k i cap else None
      end
  | LineEnd =>
      match nth_error s i with
      | None => k i cap
      | Some c => if N.eqb c 10 then k i cap else None
      end
  | Group r1 => mt r1 s i cap (fun j _ => k j (Some (i, j)))
  end.

(** A match: start, end and capture. *)
Definition rmatch := (nat * nat * capture)%type.

Fixpoint find_from (r : regex) (s : str) (i : nat) (fuel : nat) : option rmatch :=
  match fuel with
  | O => None
  | S f =>
      match mt r s i None (fun j c => Some (j, c)) with
      | Some (j, c) => Some (i, j, c)
      | None => find_from r s (S i) f
      end
  end.

(** [Regex::find] / [Regex::captures]: the leftmost-first match. *)
Definition find (r : regex) (s : str) : option rmatch :=
  find_from r s 0 (S (length s)).

(** [Regex::is_match] *)
Definition is_match (r : regex) (s : str) : bool :=
  match find r s with Some _ => true | None => false end.

(** [Regex::replace(s, "")]: the first match removed. *)
Definition replace_empty (r : regex) (s : str) : str :=
  match find r s with
  | Some (i, j, _) => firstn i s ++ skipn j s
  | None => s
  end.

(** [Regex::captures_iter] for a regex whose matches are never empty. *)
Fixpoint captures_from (r : regex) (s : str) (pos : nat) (fuel : nat) : list rmatch :=
  match fuel with
  | O => []
  | S f =>
      match find_from r s pos (S (length s - pos)) with
      | Some (i, j, c) => (i, j, c) :: captures_from r s (if Nat.eqb j i then S j else j) f
      | None => []
      end
  end.

Definition captures_iter (r : regex) (s : str) : list rmatch :=
  captures_from r s 0 (S (length s)).

(** Building blocks. *)
Definition ch (c : char) : regex := Cls (N.eqb c).
Fixpoint lit (w : str) : regex :=
  match w with
  | [] => Opt (Cls (fun _ => false))   (* matches the empty string *)
  | [c] => ch c
  | c :: w' => Seq (ch c) (lit w')
  end.
Definition plus (r : regex) : regex := Seq r (Star r).
Definition ws : regex := Cls is_ws.
Definition any : regex := Cls (fun _ => true).
Definition dot : regex := Cls (fun c => negb (N.eqb c 10)).
Definition not_crlf : regex := Cls (fun c => negb (N.eqb c 13) && negb (N.eqb c 10)).
Definition cr : regex := ch 13%N.
Definition lf : regex := ch 10%N.
Definition lang_char : regex :=
  Cls (fun c => ((97 <=? c) && (c <=? 122))%N || ((65 <=? c) && (c <=? 90))%N
                || ((48 <=? c) && (c <=? 57))%N || N.eqb c 95 || N.eqb c 45).

Fixpoint seqs (rs : list regex) : regex :=
  match rs with
  | [] => lit []
  | [r] => r
  | r :: rs' => Seq r (seqs rs')
  end.

End Regex.

Import Regex.

(** [(?m)^###\s*FILE:\s*(?P<path>[^\r\n]+)\s*\r?$] *)
Definition FILE_HEADER_RE : regex :=
  seqs [LineStart; lit (t "###"); Star ws; lit (t "FILE:"); Star ws;
        Group (plus not_crlf); Star ws; Opt cr; LineEnd].

(** [(?s)^\s*```[a-zA-Z0-9_-]*\s*\r?\n(.* )\r?\n```\s*$], the capture group
    being a dot-all star (a space separates its star from the parenthesis). *)
Definition FULL_FENCE_RE : regex :=
  seqs [TextStart; Star ws; lit (t "```"); Star lang_char; Star ws; Opt cr; lf;
        Group (Star any); Opt cr; lf; lit (t "```"); Star ws; TextEnd].

(** [(?m)^\s*###\s+FILE:.*\r?\n] *)
Definition FILE_MARKER_RE : regex :=
  seqs [LineStart; Star ws; lit (t "###"); plus ws; lit (t "FILE:"); Star dot;
        Opt cr; lf].

(** The UTF-8 byte-order mark U+FEFF. *)
Definition BOM : char := 65279%N.

(* ------------------------------------------------------------------ *)
(** ** Content sanitization *)

Definition is_markdown_like (path : str) : bool :=
  let p := to_ascii_lowercase path in
  ends_with (t ".md") p || ends_with (t ".markdown") p || ends_with (t ".rst") p.

Definition normalize_newlines (s : str) : str :=
  if existsb (N.eqb 13) s
  then replace_char 13%N [10%N] (replace_crlf s)
  else s.

(** [LEADING_BOM_RE = ^\u{FEFF}]: replacing its match drops one leading BOM. *)
Definition strip_bom (s : str) : str :=
  match s with
  | c :: s' => if N.eqb c BOM then s' else s
  | [] => []
  end.

Definition strip_leading_file_marker (s : str) : str :=
  if is_match FILE_MARKER_RE s then replace_empty FILE_MARKER_RE s else s.

Definition strip_full_file_fence (s : str) : option str :=
  match find FULL_FENCE_RE s with
  | Some (_, _, Some (a, b)) => Some (slice s a b)
  | _ => None
  end.

Definition sanitize_nonmarkdown_output (path content : str) : str :=
  let content := strip_bom content in
  let content := normalize_newlines content in
  if is_markdown_like path then content
  else
    let no_marker := strip_leading_file_marker content in
    match strip_full_file_fence no_marker with
    | Some inner => normalize_newlines inner
    | None => no_marker
    end.

(* ------------------------------------------------------------------ *)
(** ** Path sanitization *)

(** [Path::new(p).is_absolute()] on a Unix target: the path has a root. *)
Definition is_absolute (p : str) : bool :=
  match p with 47%N :: _ => true | _ => false end.

(** Splitting on ['/']. *)
Fixpoint split_slash_aux (cur : str) (s : str) : list str :=
  match s with
  | [] => [rev cur]
  | c :: s' => if N.eqb c 47 then rev cur :: split_slash_aux [] s'
               else split_slash_aux (c :: cur) s'
  end.
Definition split_slash (s : str) : list str := split_slash_aux [] s.

(** [Path::components] yields [Component::ParentDir] exactly for the
    ['/']-separated segments equal to [".."]. *)
Definition has_parent_dir (p : str) : bool :=
  existsb (str_eqb (t "..")) (split_slash p).

Definition sanitize_path (path : str) : option str :=
  let p := trim (replace_char 92%N [47%N] path) in
  if str_eqb p [] then None
  else
    let p := match strip_prefix (t "./") p with Some s => s | None => p end in
    if is_absolute p then None
    else if starts_with (t "templates/") p then None
    else if has_parent_dir p then None
    else Some p.

(* ------------------------------------------------------------------ *)
(** ** Generated files and the response *)

(** [spex_plugin::File] *)
Record File := mkFile { path : str; content : str }.

(** [GenerateResponse]: its [files] vector. *)
Definition GenerateResponse := list File.

(** [iter().position(|f| f.path == path)] *)
Fixpoint position (p : str) (fs : list File) : option nat :=
  match fs with
  | [] => None
  | f :: fs' =>
      if str_eqb (path f) p then Some 0
      else option_map S (position p fs')
  end.

(** [files[idx].content = content] *)
Fixpoint set_content (idx : nat) (c : str) (fs : list File) : list File :=
  match fs, idx with
  | [], _ => []
  | f :: fs', O => mkFile (path f) c :: fs'
  | f :: fs', S idx' => f :: set_content idx' c fs'
  end.

Definition upsert_file (response : GenerateResponse) (p c : str) : GenerateResponse :=
  match position p response with
  | Some idx => set_content idx c response
  | None => response ++ [mkFile p c]
  end.

(* ------------------------------------------------------------------ *)
(** ** Block extraction *)

(** One header: start and end of the header match and the trimmed path. *)
Definition header := (nat * nat * str)%type.

Definition headers_of (llm_output : str) : list header :=
  flat_map (fun m =>
              match m with
              | (start, end_, Some (a, b)) => [(start, end_, trim (slice llm_output a b))]
              | _ => []
              end)
           (captures_iter FILE_HEADER_RE llm_output).

(** Strip one leading ["\r\n"], or else one leading ["\n"]. *)
Definition strip_leading_newline (s : str) : str :=
  match strip_prefix [13%N; 10%N] s with
  | Some s' => s'
  | None => match strip_prefix [10%N] s with Some s' => s' | None => s end
  end.

Fixpoint slice_blocks_from (llm_output : str) (hs : list header)
    : list (str * str) :=
  match hs with
  | [] => []
  | (_, h_end, raw_path) :: rest =>
      let next_start :=
        match rest with
        | (s, _, _) :: _ => s
        | [] => length llm_output
        end in
      match sanitize_path raw_path with
      | Some p =>
          let sl := strip_leading_newline (slice llm_output h_end next_start) in
          (p, sanitize_nonmarkdown_output p sl) :: slice_blocks_from llm_output rest
      | None => slice_blocks_from llm_output rest
      end
  end.

Definition slice_file_blocks (llm_output : str) : list (str * str) :=
  slice_blocks_from llm_output (headers_of llm_output).

(** Returns the response and the number of packaged blocks. *)
Definition package_code_files (llm_output : str) (response : GenerateResponse)
    : GenerateResponse * nat :=
  let blocks := slice_file_blocks llm_output in
  (fold_left (fun r '(p, c) => upsert_file r p c) blocks response, length blocks).

(* ------------------------------------------------------------------ *)
(** ** Specification and templates *)

(** [serde_json::Value] *)
#[warnings="-register-all"]
Inductive Value :=
| VNull
| VBool (b : bool)
| VNumber (n : N)
| VString (s : str)
| VArray (vs : list Value)
| VObject (kvs : list (str * Value)).

Record Project := mkProject
  { name : str; version : str; project_description : str }.

Record SpexSpecification := mkSpec
  { language : str; project_type : str; description : str;
    project : Project; extras : list (str * Value) }.

(** The template engine, an external collaborator: the names of the loaded
    templates and rendering of a template in the context built from a
    specification (the spec and its flattened extras); rendering may fail. *)
Record Tera := mkTera
  { template_names : list string;
    render : string -> SpexSpecification -> option str }.

Definition has_template (tera : Tera) (n : string) : bool :=
  existsb (String.eqb n) (template_names tera).

Inductive error :=
| NoCandidate (candidates : list string)   (* None of the candidate templates exist *)
| RenderFailed (tpl : string)               (* Failed to render template *)
| BootstrapRenderFailed (tpl : string).     (* Failed to render bootstrap template *)

Inductive result (A : Type) := Ok (a : A) | Err (e : error).
Arguments Ok {A} a.
Arguments Err {A} e.

Definition bind {A B} (m : result A) (f : A -> result B) : result B :=
  match m with Ok a => f a | Err e => Err e end.
Notation "'let*' x := m 'in' f" := (bind m (fun x => f))
  (at level 200, x name, m at level 100, f at level 200).

(** Built-in .gitignore fallback content. *)
Definition default_gitignore : str :=
  lines ["# Rust / Cargo"; "/target/"; "**/*.rs.bk"; "";
         "# Editors & IDEs"; ".vscode/"; ".idea/"; "*.iml"; "";
         "# OS junk"; ".DS_Store"; "Thumbs.db"; "";
         "# Coverage / profiling"; "*.profraw"; "*.profdata"; "/target/llvm-cov/";
         "coverage/"; "";
         "# Python (if present)"; "/.venv/"; "__pycache__/"; "*.pyc"].

Definition render_first_existing (tera : Tera) (candidates : list string)
    (ctx : SpexSpecification) : result str :=
  match List.find (has_template tera) candidates with
  | Some n =>
      match render tera n ctx with
      | Some s => Ok s
      | None => Err (RenderFailed n)
      end
  | None => Err (NoCandidate candidates)
  end.

Definition infrastructure_plan : list (str * list string) :=
  [(t "Cargo.toml", ["rust/Cargo.toml.template"; "rust/Cargo.toml.tera";
                     "shared/Cargo.toml.template"; "shared/Cargo.toml.tera"]);
   (t "Makefile", ["rust/Makefile.template"; "rust/Makefile.tera";
                   "shared/Makefile.template"; "shared/Makefile.tera"]);
   (t "README.md", ["rust/README.md.template"; "rust/README.md.tera";
                    "shared/README.md.template"; "shared/README.md.tera"]);
   (t ".gitignore", ["rust/gitignore.template"; "rust/gitignore.tera";
                     "shared/gitignore.template"; "shared/gitignore.tera"])].

(** The loop of [package_infrastructure_files] over its plan. *)
Fixpoint infrastructure_loop (tera : Tera) (spec : SpexSpecification)
    (plan : list (str * list string)) (response : GenerateResponse)
    : result GenerateResponse :=
  match plan with
  | [] => Ok response
  | (out_path, candidates) :: rest =>
      let* rendered :=
        (if str_eqb out_path (t ".gitignore") then
           match render_first_existing tera candidates spec with
           | Ok s => Ok s
           | Err _ => Ok default_gitignore
           end
         else render_first_existing tera candidates spec) in
      let content := sanitize_nonmarkdown_output out_path rendered in
      infrastructure_loop tera spec rest (upsert_file response out_path content)
  end.

Definition package_infrastructure_files (tera : Tera) (spec : SpexSpecification)
    (response : GenerateResponse) : result GenerateResponse :=
  infrastructure_loop tera spec infrastructure_plan response.

(* ------------------------------------------------------------------ *)
(** ** Bootstrap skeleton *)

(** The [(path, template)] list selected by the lower-cased project type. *)
Definition bootstrap_plan (pt : str) : list (str * string) :=
  if str_eqb pt (t "service") then
    [(t "src/main.rs", "rust/bootstrap/service/main.rs.tera");
     (t "src/lib.rs", "rust/bootstrap/service/lib.rs.tera");
     (t "src/routes.rs", "rust/bootstrap/service/routes.rs.tera");
     (t "tests/health.rs", "rust/bootstrap/service/tests_health.rs.tera")]
  else if str_eqb pt (t "library") then
    [(t "src/lib.rs", "rust/bootstrap/library/lib.rs.tera");
     (t "tests/lib.rs", "rust/bootstrap/library/tests_lib.rs.tera")]
  else
    [(t "src/main.rs", "rust/bootstrap/cli/main.rs.tera");
     (t "src/lib.rs", "rust/bootstrap/cli/lib.rs.tera");
     (t "tests/cli.rs", "rust/bootstrap/cli/tests_cli.rs.tera")].

(** The default (cli) archetype's list. *)
Definition default_bootstrap_plan : list (str * string) := bootstrap_plan [].

(** The loop of [package_bootstrap_files]: a missing template is skipped,
    a rendering failure aborts. *)
Fixpoint bootstrap_loop (tera : Tera) (spec : SpexSpecification)
    (files : list (str * string)) (response : GenerateResponse)
    (rendered_count : nat) : result (GenerateResponse * nat) :=
  match files with
  | [] => Ok (response, rendered_count)
  | (p, tpl) :: rest =>
      if negb (has_template tera tpl) then
        bootstrap_loop tera spec rest response rendered_count
      else
        match render tera tpl spec with
        | None => Err (BootstrapRenderFailed tpl)
        | Some rendered =>
            let c := sanitize_nonmarkdown_output p rendered in
            bootstrap_loop tera spec rest (upsert_file response p c) (S rendered_count)
        end
  end.

Definition package_bootstrap_files (tera : Tera) (spec : SpexSpecification)
    (response : GenerateResponse) : result (GenerateResponse * nat) :=
  let pt := to_ascii_lowercase (project_type spec) in
  bootstrap_loop tera spec (bootstrap_plan pt) response 0.

(* ------------------------------------------------------------------ *)
(** ** Manifest and the packaging run of [handle_generate] *)

Definition hex_digit (d : N) : char := if (d <? 10)%N then (48 + d)%N else (87 + d)%N.

(** serde_json's escaping of a string character. *)
Definition json_escape_char (c : char) : str :=
  if N.eqb c 34 then [92%N; 34%N]
  else if N.eqb c 92 then [92%N; 92%N]
  else if N.eqb c 8 then t "\b"
  else if N.eqb c 9 then t "\t"
  else if N.eqb c 10 then t "\n"
  else if N.eqb c 12 then t "\f"
  else if N.eqb c 13 then t "\r"
  else if (c <? 32)%N then t "\u00" ++ [hex_digit (c / 16); hex_digit (c mod 16)]
  else [c].

Definition json_string (s : str) : str :=
  [34%N] ++ flat_map json_escape_char s ++ [34%N].

Fixpoint join (sep : str) (xs : list str) : str :=
  match xs with
  | [] => []
  | [x] => x
  | x :: xs' => x ++ sep ++ join sep xs'
  end.

(** [json!({"files": [{"path": p}, ...]}).to_string()] *)
Definition manifest_json (paths : list str) : str :=
  t "{" ++ json_string (t "files") ++ t ":["
  ++ join (t ",") (map (fun p => t "{" ++ json_string (t "path") ++ t ":"
                                 ++ json_string p ++ t "}") paths)
  ++ t "]}".

Definition MANIFEST_PATH : str := t ".spex_manifest.json".

(** [response.files.push(File { path: ".spex_manifest.json", content: manifest })] *)
Definition append_manifest (response : GenerateResponse) : GenerateResponse :=
  response ++ [mkFile MANIFEST_PATH (manifest_json (map path response))].

(** [handle_generate] from the model output on: code blocks, infrastructure,
    the bootstrap skeleton when no block was packaged, then the manifest. *)
Definition handle_generate (tera : Tera) (spec : SpexSpecification)
    (llm_output : str) : result GenerateResponse :=
  let (response, code_count) := package_code_files llm_output [] in
  let* response := package_infrastructure_files tera spec response in
  let* response :=
    (if Nat.eqb code_count 0 then
       bind (package_bootstrap_files tera spec response) (fun rc => Ok (fst rc))
     else Ok response) in
  Ok (append_manifest response).

(* ------------------------------------------------------------------ *)
(** ** Concrete inputs *)

(** A template set holding every template the code looks up; each renders to
    a line naming itself. *)
Definition all_templates : list string :=
  flat_map snd infrastructure_plan
  ++ map snd (bootstrap_plan (t "service")) ++ map snd (bootstrap_plan (t "library"))
  ++ map snd default_bootstrap_plan.

Definition full_tera : Tera :=
  mkTera all_templates (fun n _ => Some (t ("rendered " ++ n) ++ [10%N])).

Definition spec_of_type (pt : str) : SpexSpecification :=
  mkSpec (t "rust") pt (t "demo") (mkProject (t "demo") (t "0.1.0") (t "demo")) [].

(** The content of the first entry at path [p]. *)
Definition lookup (p : str) (fs : list File) : option str :=
  option_map content (List.find (fun f => str_eqb (path f) p) fs).

(** The model output of the end-to-end scenario. *)
Definition scenario_input : str :=
  lines ["### FILE: src/main.x"; "```lang"; "body"; "```";
         "### FILE: README.md"; "```md"; "# Hi"; "```"].

(** A template set missing every candidate of one infrastructure output. *)
Definition tera_without (missing : list string) : Tera :=
  mkTera (filter (fun n => negb (existsb (String.eqb n) missing)) all_templates)
         (render full_tera).

(** Every loaded template renders for this specification. *)
Definition renders_ok (tera : Tera) (spec : SpexSpecification) : Prop :=
  forall n, has_template tera n = true -> render tera n spec <> None.

(** Every case variant of an ASCII word. *)
Fixpoint case_variants (s : str) : list str :=
  match s with
  | [] => [[]]
  | c :: s' =>
      let vs := case_variants s' in
      if ((97 <=? c) && (c <=? 122))%N then map (cons c) vs ++ map (cons (c - 32)%N) vs
      else map (cons c) vs
  end.

Definition option_str_eqb (a b : option str) : bool :=
  match a, b with
  | Some x, Some y => str_eqb x y
  | None, None => true
  | _, _ => false
  end.

(** The normalized form PathGuard checks its rules on. *)
Definition normalized_path (raw : str) : str :=
  let p := trim (replace_char 92%N [47%N] raw) in
  match strip_prefix (t "./") p with Some s => s | None => p end.

(** A file fenced twice. *)
Definition double_fenced : str := lines ["```"; "```"; "x"; "```"; "```"].

(** Content whose second line is an indented header marker. *)
Definition inner_marker_content : str :=
  t "a" ++ [10%N] ++ t "  ### FILE: x" ++ [10%N] ++ t "b".

Definition at_path (p : str) (f : File) : bool := str_eqb (path f) p.

(** Two blocks headed "src/main.x" with bodies "A" then "B". *)
Definition duplicate_input : str :=
  lines ["### FILE: src/main.x"; "A"] ++ t "### FILE: src/main.x" ++ [10%N] ++ t "B".

(** A model output with a block at the reserved manifest path. *)
Definition manifest_block_input : str := lines ["### FILE: .spex_manifest.json"; "{}"].

(** The artifact of the end-to-end scenario with the full template set. *)
Definition scenario_final : list File :=
  match handle_generate full_tera (spec_of_type (t "library")) scenario_input with
  | Ok f => f
  | Err _ => []
  end.

(** The candidate list of the [i]-th infrastructure output. *)
Definition plan_candidates (i : nat) : list string := snd (nth i infrastructure_plan ([], [])).

Definition template_present (tera : Tera) (e : str * string) : bool :=
  has_template tera (snd e).


(* ------------------------------------------------------------------ *)
(** ** Server start-up check (src/server.rs) *)

Definition REQUIRED_TEMPLATES : list string :=
  ["rust/Cargo.toml.template"; "rust/Makefile.template"; "rust/README.md.template";
   "rust/instructions/rust_rules.tera"; "rust/prompt_templates/generation.tera";
   "rust/prompt_templates/review.tera"].

(** [ensure_required_templates]: [inl tt] for [Ok(())], [inr missing] for the
    error listing the missing templates in the order of the required list. *)
Definition ensure_required_templates (tera : Tera) : unit + list string :=
  let missing := filter (fun n => negb (has_template tera n)) REQUIRED_TEMPLATES in
  match missing with
  | [] => inl tt
  | _ => inr missing
  end.

(* ------------------------------------------------------------------ *)
(** ** Response parsing of the model client (src/llm_client.rs) *)

(** [value[key]] of serde_json: the key's value in an object (a map holds
    each key once), [Null] for a missing key or a non-object. *)
Definition index_key (k : str) (v : Value) : Value :=
  match v with
  | VObject kvs =>
      match List.find (fun kv => str_eqb (fst kv) k) kvs with
      | Some (_, x) => x
      | None => VNull
      end
  | _ => VNull
  end.

(** [value[i]]: the element of an array, [Null] out of bounds or for a
    non-array. *)
Definition index_nth (i : nat) (v : Value) : Value :=
  match v with
  | VArray vs => nth i vs VNull
  | _ => VNull
  end.

(** [Value::as_str] *)
Definition as_str (v : Value) : option str :=
  match v with VString s => Some s | _ => None end.

Inductive llm_error :=
| ParseFailed (provider : str).   (* Failed to parse LLM response for {provider} *)

Definition parse_response (provider : str) (data : Value) : str + llm_error :=
  let text :=
    if str_eqb provider (t "openai") then
      as_str (index_key (t "content")
                (index_key (t "message") (index_nth 0 (index_key (t "choices") data))))
    else if str_eqb provider (t "gemini") then
      as_str (index_key (t "text")
                (index_nth 0 (index_key (t "parts")
                   (index_key (t "content") (index_nth 0 (index_key (t "candidates") data))))))
    else None in
  match text with
  | Some s => inl s
  | None => inr (ParseFailed provider)
  end.

(** The shape of a chat-completions answer carrying [s]. *)
Definition openai_answer (s : str) : Value :=
  VObject [(t "id", VString (t "x"));
           (t "choices", VArray [VObject [(t "index", VNumber 0);
                                          (t "message", VObject [(t "role", VString (t "assistant"));
                                                                 (t "content", VString s)])]])].

(** The shape of a generateContent answer carrying [s]. *)
Definition gemini_answer (s : str) : Value :=
  VObject [(t "candidates",
            VArray [VObject [(t "content",
                              VObject [(t "parts", VArray [VObject [(t "text", VString s)]]);
                                       (t "role", VString (t "model"))])]])].

(* ------------------------------------------------------------------ *)
(** ** Auxiliary definitions for further properties *)

(** The content of the last block at path [p]. *)
Fixpoint last_content (p : str) (blocks : list (str * str)) : option str :=
  match blocks with
  | [] => None
  | (q, c) :: bs =>
      match last_content p bs with
      | Some x => Some x
      | None => if str_eqb q p then Some c else None
      end
  end.

Definition infrastructure_paths : list str := map fst infrastructure_plan.

(** A template set whose .gitignore template is present but fails to render. *)
Definition broken_gitignore_tera : Tera :=
  mkTera all_templates
         (fun n ctx => if String.eqb n "rust/gitignore.template" then None
                       else render full_tera n ctx).

(** A template set with the required prompt templates besides the packaging ones. *)
Definition server_tera : Tera :=
  mkTera (REQUIRED_TEMPLATES ++ all_templates) (render full_tera).

(** Reading back a JSON string body up to its closing quote. *)
Definition hex_val (x : N) : N := if ((48 <=? x) && (x <=? 57))%N then (x - 48)%N else (x - 87)%N.

Definition unescape_simple (e : N) : option N :=
  if N.eqb e 34 then Some 34%N else if N.eqb e 92 then Some 92%N
  else if N.eqb e 98 then Some 8%N else if N.eqb e 116 then Some 9%N
  else if N.eqb e 110 then Some 10%N else if N.eqb e 102 then Some 12%N
  else if N.eqb e 114 then Some 13%N else None.

Fixpoint read_str (s : str) : option (str * str) :=
  match s with
  | [] => None
  | c :: rest =>
      if N.eqb c 34 then Some ([], rest)
      else if N.eqb c 92 then
        match rest with
        | e :: rest' =>
            if N.eqb e 117 then
              match rest' with
              | a :: b :: h1 :: h2 :: rest'' =>
                  option_map (fun '(x, r) =>
                                ((4096 * hex_val a + 256 * hex_val b + 16 * hex_val h1
                                  + hex_val h2)%N :: x, r))
                             (read_str rest'')
              | _ => None
              end
            else match unescape_simple e with
                 | Some d => option_map (fun '(x, r) => (d :: x, r)) (read_str rest')
                 | None => None
                 end
        | [] => None
        end
      else option_map (fun '(x, r) => (c :: x, r)) (read_str rest)
  end.

Definition manifest_entry (p : str) : str :=
  t "{" ++ json_string (t "path") ++ t ":" ++ json_string p ++ t "}".

Definition no_cr (s : str) : bool := negb (existsb (N.eqb 13) s).

Definition all_no_cr (fs : list File) : Prop := forall f, In f fs -> no_cr (content f) = true.

(* ================================================================== *)
(** * Properties *)

Lemma str_eqb_eq : forall a b, str_eqb a b = true <-> a = b.
Proof.
  intros a b; unfold str_eqb; destruct (list_eq_dec N.eq_dec a b); split;
    congruence.
Qed.

Lemma str_eqb_refl : forall a, str_eqb a a = true.
Proof. intros a; apply str_eqb_eq; reflexivity. Qed.

(* ------------------------------------------------------------------ *)
(** ** Lemmas on the registry *)

Lemma upsert_file_nil : forall p c, upsert_file [] p c = [mkFile p c].
Proof. reflexivity. Qed.

Lemma upsert_file_cons : forall f fs p c,
  upsert_file (f :: fs) p c =
  if str_eqb (path f) p then mkFile (path f) c :: fs else f :: upsert_file fs p c.
Proof.
  intros f fs p c; unfold upsert_file; simpl.
  destruct (str_eqb (path f) p); [reflexivity|].
  destruct (position p fs); reflexivity.
Qed.

Lemma upsert_file_paths : forall fs p c,
  map path (upsert_file fs p c) =
  if existsb (fun q => str_eqb q p) (map path fs) then map path fs
  else map path fs ++ [p].
Proof.
  induction fs as [|f fs IH]; intros p c; [reflexivity|].
  rewrite upsert_file_cons; simpl.
  destruct (str_eqb (path f) p) eqn:E; simpl; [reflexivity|].
  rewrite IH; destruct (existsb _ _); reflexivity.
Qed.

Lemma lookup_cons : forall f fs p,
  lookup p (f :: fs) = if str_eqb (path f) p then Some (content f) else lookup p fs.
Proof. intros; unfold lookup; simpl; destruct (str_eqb (path f) p); reflexivity. Qed.

Lemma lookup_upsert_same : forall fs p c, lookup p (upsert_file fs p c) = Some c.
Proof.
  induction fs as [|f fs IH]; intros p c.
  - unfold lookup; simpl; rewrite str_eqb_refl; reflexivity.
  - rewrite upsert_file_cons.
    destruct (str_eqb (path f) p) eqn:E; rewrite lookup_cons; simpl.
    + rewrite E; reflexivity.
    + rewrite E; apply IH.
Qed.

Lemma lookup_upsert_other : forall fs p q c,
  q <> p -> lookup q (upsert_file fs p c) = lookup q fs.
Proof.
  induction fs as [|f fs IH]; intros p q c Hne.
  - unfold lookup; simpl.
    destruct (str_eqb p q) eqn:E; [apply str_eqb_eq in E; congruence|reflexivity].
  - rewrite upsert_file_cons.
    destruct (str_eqb (path f) p) eqn:E; rewrite !lookup_cons; simpl.
    + apply str_eqb_eq in E; subst p.
      destruct (str_eqb (path f) q) eqn:E2; [apply str_eqb_eq in E2; congruence|].
      reflexivity.
    + rewrite IH by assumption; reflexivity.
Qed.

Lemma lookup_app_found : forall fs extra p c,
  lookup p fs = Some c -> lookup p (fs ++ extra) = Some c.
Proof.
  induction fs as [|f fs IH]; intros extra p c H; [discriminate|].
  simpl app; rewrite lookup_cons in *.
  destruct (str_eqb (path f) p); [assumption|].
  apply IH; assumption.
Qed.

Lemma find_all_false : forall {A} (f : A -> bool) l,
  (forall x, In x l -> f x = false) -> List.find f l = None.
Proof.
  intros A f l; induction l as [|x l IH]; intros H; [reflexivity|].
  simpl; rewrite (H x (or_introl eq_refl)).
  apply IH; intros y Hy; apply H; right; assumption.
Qed.

Lemma render_first_existing_missing : forall tera cands ctx,
  (forall c, In c cands -> has_template tera c = false) ->
  render_first_existing tera cands ctx = Err (NoCandidate cands).
Proof.
  intros tera cands ctx H; unfold render_first_existing.
  rewrite find_all_false by assumption; reflexivity.
Qed.

Lemma render_first_existing_ok : forall tera spec cands,
  renders_ok tera spec ->
  (exists c, In c cands /\ has_template tera c = true) ->
  exists s, render_first_existing tera cands spec = Ok s.
Proof.
  intros tera spec cands Hok [c [Hin Hc]]; unfold render_first_existing.
  destruct (List.find (has_template tera) cands) as [n|] eqn:E.
  - apply find_some in E as [_ En].
    destruct (render tera n spec) as [s|] eqn:R; [eauto|].
    exfalso; apply (Hok n En R).
  - exfalso; rewrite (find_none _ _ E c Hin) in Hc; discriminate.
Qed.

Lemma replace_char_ws : forall s,
  forallb is_ws s = true -> replace_char 92%N [47%N] s = s.
Proof.
  induction s as [|c s IH]; intros H; [reflexivity|].
  simpl in H; apply andb_prop in H as [Hc Hs].
  unfold replace_char in *; simpl.
  destruct (N.eqb c 92) eqn:E.
  - apply N.eqb_eq in E; subst c; discriminate.
  - simpl; f_equal; apply IH; assumption.
Qed.

Lemma trim_start_ws : forall s, forallb is_ws s = true -> trim_start s = [].
Proof.
  induction s as [|c s IH]; intros H; [reflexivity|].
  simpl in H; apply andb_prop in H as [Hc Hs].
  simpl; rewrite Hc; apply IH; assumption.
Qed.

(* ------------------------------------------------------------------ *)
(** ** PathGuard *)

(** C4: [sanitize_path] (a function, hence deterministic) rejects
    "/etc/passwd", "../../x", "templates/evil.tera", the empty string and
    every whitespace-only string, and accepts "./src/lib.rs" as "src/lib.rs". *)
Theorem sanitize_path_listed_inputs : forall s,
  forallb is_ws s = true ->
  sanitize_path s = None
  /\ sanitize_path (t "/etc/passwd") = None
  /\ sanitize_path (t "../../x") = None
  /\ sanitize_path (t "templates/evil.tera") = None
  /\ sanitize_path [] = None
  /\ sanitize_path (t "./src/lib.rs") = Some (t "src/lib.rs").
Proof.
  intros s Hs.
  split; [|repeat split; reflexivity].
  unfold sanitize_path; rewrite replace_char_ws by assumption.
  unfold trim; rewrite (trim_start_ws s Hs); reflexivity.
Qed.

Lemma sanitize_path_listed_inputs_witness :
  forallb is_ws [32%N; 9%N; 12288%N] = true
  /\ sanitize_path [32%N; 9%N; 12288%N] = None
  /\ sanitize_path (t "./src/lib.rs") = Some (t "src/lib.rs").
Proof.
  split; [reflexivity|].
  pose proof (sanitize_path_listed_inputs [32%N; 9%N; 12288%N] eq_refl) as H.
  destruct H as [H1 [_ [_ [_ [_ H6]]]]]; split; assumption.
Defined.

(** C10: the reserved-prefix rule rejects exactly the normalized paths that
    start with the case-sensitive "templates/"; the bare "templates" and
    every other casing of "templates/evil.tera" are accepted unchanged. *)
Theorem sanitize_path_reserved_prefix_exact :
  (forall raw,
     sanitize_path raw = None <->
     (trim (replace_char 92%N [47%N] raw) = []
      \/ is_absolute (normalized_path raw) = true
      \/ starts_with (t "templates/") (normalized_path raw) = true
      \/ has_parent_dir (normalized_path raw) = true))
  /\ sanitize_path (t "templates") = Some (t "templates")
  /\ sanitize_path (t "Templates/evil.tera") = Some (t "Templates/evil.tera")
  /\ forallb (fun v => str_eqb v (t "templates")
                       || option_str_eqb (sanitize_path (v ++ t "/evil.tera"))
                                         (Some (v ++ t "/evil.tera")))
             (case_variants (t "templates")) = true.
Proof.
  split; [|split; [reflexivity|split; [reflexivity|vm_compute; reflexivity]]].
  intros raw; unfold sanitize_path, normalized_path.
  set (p := trim (replace_char 92%N [47%N] raw)).
  destruct (str_eqb p []) eqn:E0.
  - apply str_eqb_eq in E0; rewrite E0; split; [intros _; left; reflexivity|reflexivity].
  - assert (p <> []) by (intros Hp; rewrite Hp in E0; discriminate).
    set (q := match strip_prefix (t "./") p with Some s => s | None => p end).
    destruct (is_absolute q), (starts_with (t "templates/") q), (has_parent_dir q);
      simpl; intuition (discriminate || congruence).
Qed.

(* ------------------------------------------------------------------ *)
(** ** ContentSanitizer *)

Lemma replace_char_cons : forall from to c s,
  replace_char from to (c :: s) =
  (if N.eqb c from then to else [c]) ++ replace_char from to s.
Proof. reflexivity. Qed.

Lemma replace_cr_no_cr : forall s,
  existsb (N.eqb 13) (replace_char 13%N [10%N] s) = false.
Proof.
  induction s as [|c s IH]; [reflexivity|].
  rewrite replace_char_cons, existsb_app.
  fold (replace_char 13%N [10%N] s); rewrite IH, orb_false_r.
  destruct (N.eqb c 13) eqn:E; [reflexivity|].
  cbn [existsb]; rewrite N.eqb_sym, E; reflexivity.
Qed.

Lemma normalize_newlines_no_cr : forall s,
  existsb (N.eqb 13) (normalize_newlines s) = false.
Proof.
  intros s; unfold normalize_newlines.
  destruct (existsb (N.eqb 13) s) eqn:E; [apply replace_cr_no_cr|exact E].
Qed.

Lemma normalize_newlines_idem : forall s,
  normalize_newlines (normalize_newlines s) = normalize_newlines s.
Proof.
  intros s; unfold normalize_newlines at 1.
  rewrite normalize_newlines_no_cr; reflexivity.
Qed.

Lemma strip_bom_no_bom : forall s, hd_error s <> Some BOM -> strip_bom s = s.
Proof.
  intros [|c s] H; [reflexivity|]; simpl in *.
  destruct (N.eqb c BOM) eqn:E; [apply N.eqb_eq in E; congruence|reflexivity].
Qed.

Lemma sanitize_markdown : forall p c,
  is_markdown_like p = true ->
  sanitize_nonmarkdown_output p c = normalize_newlines (strip_bom c).
Proof. intros p c H; unfold sanitize_nonmarkdown_output; rewrite H; reflexivity. Qed.

(** C3 (counterexample): on a source path, a doubly fenced file loses one
    fence per application, so [sanitize] is not idempotent. *)
Lemma sanitize_not_idempotent :
  sanitize_nonmarkdown_output (t "src/a.rs") double_fenced
  = t "```" ++ [10%N] ++ t "x" ++ [10%N] ++ t "```" /\
  sanitize_nonmarkdown_output (t "src/a.rs")
    (sanitize_nonmarkdown_output (t "src/a.rs") double_fenced) = t "x" /\
  sanitize_nonmarkdown_output (t "src/a.rs")
    (sanitize_nonmarkdown_output (t "src/a.rs") double_fenced)
  <> sanitize_nonmarkdown_output (t "src/a.rs") double_fenced.
Proof.
  split; [vm_compute; reflexivity|split; [vm_compute; reflexivity|]].
  vm_compute; discriminate.
Qed.

(** C3 (amended): on a documentation-like path, [sanitize] is idempotent
    whenever its result does not start with a byte-order mark. *)
Theorem sanitize_markdown_idempotent : forall p c,
  is_markdown_like p = true ->
  hd_error (sanitize_nonmarkdown_output p c) <> Some BOM ->
  sanitize_nonmarkdown_output p (sanitize_nonmarkdown_output p c)
  = sanitize_nonmarkdown_output p c.
Proof.
  intros p c Hmd Hbom.
  rewrite (sanitize_markdown p (sanitize_nonmarkdown_output p c) Hmd).
  rewrite (strip_bom_no_bom _ Hbom).
  rewrite (sanitize_markdown p c Hmd).
  apply normalize_newlines_idem.
Qed.

Lemma sanitize_markdown_idempotent_witness :
  is_markdown_like (t "README.md") = true
  /\ sanitize_nonmarkdown_output (t "README.md")
       (sanitize_nonmarkdown_output (t "README.md") (BOM :: t "# Hi"))
     = sanitize_nonmarkdown_output (t "README.md") (BOM :: t "# Hi").
Proof.
  split; [reflexivity|].
  apply sanitize_markdown_idempotent; [reflexivity|].
  vm_compute; discriminate.
Defined.

(** C9 (code_bug): [FILE_MARKER_RE] is compiled with (?m), so its [^]
    matches at every line start: a header-marker line in the middle of the
    content is removed although the content does not begin with one; the
    same happens to a block extracted from model output. *)
Theorem sanitize_removes_inner_marker :
  sanitize_nonmarkdown_output (t "src/a.rs") inner_marker_content
  = t "a" ++ [10%N] ++ t "b"
  /\ slice_file_blocks (t "### FILE: src/a.rs" ++ [10%N] ++ inner_marker_content)
     = [(t "src/a.rs", t "a" ++ [10%N] ++ t "b")].
Proof. split; vm_compute; reflexivity. Qed.

(* ------------------------------------------------------------------ *)
(** ** ArtifactRegistry *)

Lemma filter_length_zero : forall {A} (P : A -> bool) l,
  length (filter P l) = 0 -> filter P l = [].
Proof. intros A P [|x l] H; [reflexivity|]; destruct (filter P (x :: l)); [reflexivity|discriminate]. Qed.

Lemma filter_upsert_file : forall fs p c,
  length (filter (at_path p) fs) <= 1 ->
  filter (at_path p) (upsert_file fs p c) = [mkFile p c].
Proof.
  induction fs as [|f fs IH]; intros p c H.
  - unfold at_path; simpl; rewrite str_eqb_refl; reflexivity.
  - rewrite upsert_file_cons; unfold at_path in *; simpl in H.
    destruct (str_eqb (path f) p) eqn:E; simpl.
    + rewrite E. apply str_eqb_eq in E; rewrite E.
      simpl in H; rewrite filter_length_zero by lia; reflexivity.
    + rewrite E; apply IH; assumption.
Qed.

Lemma position_upsert_file : forall fs p c,
  position p (upsert_file fs p c) =
  Some (match position p fs with Some i => i | None => length fs end).
Proof.
  induction fs as [|f fs IH]; intros p c.
  - simpl; rewrite str_eqb_refl; reflexivity.
  - rewrite upsert_file_cons; simpl.
    destruct (str_eqb (path f) p) eqn:E; simpl; rewrite ?E; [reflexivity|].
    rewrite IH; destruct (position p fs); reflexivity.
Qed.

Lemma upsert_file_keeps_others : forall fs p c i f,
  nth_error fs i = Some f -> path f <> p ->
  nth_error (upsert_file fs p c) i = Some f.
Proof.
  induction fs as [|g fs IH]; intros p c i f Hi Hp; [destruct i; discriminate|].
  rewrite upsert_file_cons.
  destruct i as [|i]; simpl in Hi.
  - inversion Hi; subst g.
    destruct (str_eqb (path f) p) eqn:E; [apply str_eqb_eq in E; congruence|reflexivity].
  - destruct (str_eqb (path g) p); simpl; [assumption|].
    apply IH; assumption.
Qed.

Lemma upsert_file_paths_extend : forall fs p c,
  exists extra, map path (upsert_file fs p c) = map path fs ++ extra.
Proof.
  intros fs p c; rewrite upsert_file_paths.
  destruct (existsb _ _); [exists []; rewrite app_nil_r|exists [p]]; reflexivity.
Qed.

(** C6: upserting the same path twice leaves exactly one entry for it, with
    the later content, at the position of the first insertion; an upsert
    never removes an entry, never moves one, and leaves the entries at other
    paths unchanged.  The model-output example packages to one entry "B". *)
Theorem upsert_file_in_place : forall fs p a b,
  length (filter (at_path p) fs) <= 1 ->
  filter (at_path p) (upsert_file (upsert_file fs p a) p b) = [mkFile p b]
  /\ position p (upsert_file (upsert_file fs p a) p b)
     = Some (match position p fs with Some i => i | None => length fs end)
  /\ (forall q c, exists extra, map path (upsert_file fs q c) = map path fs ++ extra)
  /\ (forall q c i f, nth_error fs i = Some f -> path f <> q ->
                      nth_error (upsert_file fs q c) i = Some f)
  /\ package_code_files duplicate_input [] = ([mkFile (t "src/main.x") (t "B")], 2).
Proof.
  intros fs p a b H.
  split; [|split; [|split; [|split]]].
  - apply filter_upsert_file; rewrite filter_upsert_file by assumption; simpl; lia.
  - rewrite position_upsert_file, position_upsert_file; reflexivity.
  - apply upsert_file_paths_extend.
  - apply upsert_file_keeps_others.
  - vm_compute; reflexivity.
Qed.

Lemma upsert_file_in_place_witness :
  filter (at_path (t "src/main.x"))
    (upsert_file (upsert_file [mkFile (t "Cargo.toml") []] (t "src/main.x") (t "A"))
                 (t "src/main.x") (t "B"))
  = [mkFile (t "src/main.x") (t "B")].
Proof.
  apply (upsert_file_in_place [mkFile (t "Cargo.toml") []] (t "src/main.x") (t "A") (t "B")).
  vm_compute; lia.
Defined.

(** Path uniqueness is kept by every upserting stage. *)
Lemma upsert_file_nodup : forall fs p c,
  NoDup (map path fs) -> NoDup (map path (upsert_file fs p c)).
Proof.
  intros fs p c H; rewrite upsert_file_paths.
  destruct (existsb (fun q => str_eqb q p) (map path fs)) eqn:E; [assumption|].
  apply NoDup_app; [assumption|constructor; [intros []|constructor]|].
  intros x Hx [Hp|[]]; subst x.
  assert (existsb (fun q => str_eqb q p) (map path fs) = true)
    by (apply existsb_exists; exists p; split; [assumption|apply str_eqb_refl]).
  congruence.
Qed.

Lemma package_code_files_nodup : forall out r,
  NoDup (map path r) -> NoDup (map path (fst (package_code_files out r))).
Proof.
  intros out r; unfold package_code_files; simpl.
  generalize (slice_file_blocks out); intros blocks; revert r.
  induction blocks as [|[p c] blocks IH]; intros r H; simpl; [assumption|].
  apply IH, upsert_file_nodup, H.
Qed.

Lemma infrastructure_loop_nodup : forall tera spec plan r r',
  NoDup (map path r) -> infrastructure_loop tera spec plan r = Ok r' ->
  NoDup (map path r').
Proof.
  intros tera spec plan; induction plan as [|[o cs] plan IH]; intros r r' H E.
  - simpl in E; inversion E; subst; assumption.
  - simpl in E.
    destruct (if str_eqb o (t ".gitignore") then _ else _) as [s|e]; simpl in E;
      [|discriminate].
    eapply IH; [apply upsert_file_nodup, H|exact E].
Qed.

Lemma bootstrap_loop_nodup : forall tera spec files r n r' n',
  NoDup (map path r) -> bootstrap_loop tera spec files r n = Ok (r', n') ->
  NoDup (map path r').
Proof.
  intros tera spec files; induction files as [|[p tpl] files IH];
    intros r n r' n' H E; simpl in E.
  - inversion E; subst; assumption.
  - destruct (negb (has_template tera tpl)); [eapply IH; eauto|].
    destruct (render tera tpl spec); [|discriminate].
    eapply IH; [apply upsert_file_nodup, H|exact E].
Qed.

Lemma append_manifest_nodup : forall r,
  NoDup (map path r) -> ~ In MANIFEST_PATH (map path r) ->
  NoDup (map path (append_manifest r)).
Proof.
  intros r H Hn; unfold append_manifest; rewrite map_app; simpl.
  apply NoDup_app; [assumption|constructor; [intros []|constructor]|].
  intros x Hx [Hp|[]]; subst x; contradiction.
Qed.

(** C2 (code_bug): the manifest is pushed, not upserted, so a model block at
    ".spex_manifest.json" survives next to the appended manifest and the
    returned artifact holds two entries with that path. *)
Theorem manifest_push_duplicates_path :
  exists final,
    handle_generate full_tera (spec_of_type (t "library")) manifest_block_input = Ok final
    /\ map path final = [MANIFEST_PATH; t "Cargo.toml"; t "Makefile"; t "README.md";
                         t ".gitignore"; MANIFEST_PATH]
    /\ ~ NoDup (map path final).
Proof.
  set (final := match handle_generate full_tera (spec_of_type (t "library"))
                        manifest_block_input with Ok f => f | Err _ => [] end).
  exists final.
  assert (Hp : map path final = [MANIFEST_PATH; t "Cargo.toml"; t "Makefile";
                                 t "README.md"; t ".gitignore"; MANIFEST_PATH])
    by (vm_compute; reflexivity).
  split; [vm_compute; reflexivity|split; [exact Hp|]].
  rewrite Hp; intros Hnd; inversion Hnd as [|x l Hnin Hrest]; subst.
  apply Hnin; simpl; right; right; right; right; left; reflexivity.
Qed.

(* ------------------------------------------------------------------ *)
(** ** InfrastructureAssembler *)

Lemma package_infrastructure_files_unfold : forall tera spec r,
  package_infrastructure_files tera spec r =
  let* s1 := render_first_existing tera (plan_candidates 0) spec in
  let* s2 := render_first_existing tera (plan_candidates 1) spec in
  let* s3 := render_first_existing tera (plan_candidates 2) spec in
  bind (match render_first_existing tera (plan_candidates 3) spec with
        | Ok s => Ok s
        | Err _ => Ok default_gitignore
        end)
       (fun s4 =>
          Ok (upsert_file
                (upsert_file
                   (upsert_file
                      (upsert_file r (t "Cargo.toml")
                         (sanitize_nonmarkdown_output (t "Cargo.toml") s1))
                      (t "Makefile") (sanitize_nonmarkdown_output (t "Makefile") s2))
                   (t "README.md") (sanitize_nonmarkdown_output (t "README.md") s3))
                (t ".gitignore") (sanitize_nonmarkdown_output (t ".gitignore") s4))).
Proof.
  intros tera spec r; unfold package_infrastructure_files.
  cbn [infrastructure_plan infrastructure_loop plan_candidates nth snd].
  destruct (render_first_existing tera _ spec) as [s1|e]; [|reflexivity]; cbn [bind].
  destruct (render_first_existing tera _ spec) as [s2|e]; [|reflexivity]; cbn [bind].
  destruct (render_first_existing tera _ spec) as [s3|e]; [|reflexivity]; cbn [bind].
  destruct (render_first_existing tera _ spec); reflexivity.
Qed.

Lemma render_first_existing_head : forall tera cands ctx c s,
  hd_error cands = Some c -> has_template tera c = true -> render tera c ctx = Some s ->
  render_first_existing tera cands ctx = Ok s.
Proof.
  intros tera [|c0 cs] ctx c s Hh Hc Hr; [discriminate|].
  simpl in Hh; inversion Hh; subst c0.
  unfold render_first_existing; simpl; rewrite Hc, Hr; reflexivity.
Qed.

Lemma sanitize_default_gitignore :
  sanitize_nonmarkdown_output (t ".gitignore") default_gitignore = default_gitignore.
Proof. vm_compute; reflexivity. Qed.

Lemma infrastructure_loop_missing : forall tera spec plan r o cs,
  In (o, cs) plan -> o <> t ".gitignore" ->
  (forall c, In c cs -> has_template tera c = false) ->
  exists e, infrastructure_loop tera spec plan r = Err e.
Proof.
  intros tera spec plan; induction plan as [|[o' cs'] plan IH];
    intros r o cs Hin Ho Hm; [destruct Hin|].
  simpl.
  destruct Hin as [Heq|Hin].
  - inversion Heq; subst o' cs'.
    destruct (str_eqb o (t ".gitignore")) eqn:E; [apply str_eqb_eq in E; contradiction|].
    rewrite render_first_existing_missing by assumption; eexists; reflexivity.
  - destruct (if str_eqb o' (t ".gitignore") then _ else _) as [s|e]; cbn [bind];
      [|eexists; reflexivity].
    eapply IH; eassumption.
Qed.

(* ------------------------------------------------------------------ *)
(** ** BootstrapAssembler *)

Lemma bootstrap_loop_ok : forall tera spec files r n q,
  renders_ok tera spec ->
  (forall p tpl, In (p, tpl) files -> p <> q) ->
  exists r', bootstrap_loop tera spec files r n
             = Ok (r', n + length (filter (template_present tera) files))
             /\ lookup q r' = lookup q r.
Proof.
  intros tera spec files; induction files as [|[p tpl] files IH];
    intros r n q Hok Hq.
  - exists r; split; [rewrite Nat.add_0_r|]; reflexivity.
  - simpl; unfold template_present at 1; simpl.
    assert (Hq' : forall p' tpl', In (p', tpl') files -> p' <> q)
      by (intros; eapply Hq; right; eassumption).
    destruct (has_template tera tpl) eqn:Ht; simpl.
    + destruct (render tera tpl spec) as [s|] eqn:Hr; [|exfalso; apply (Hok tpl Ht Hr)].
      destruct (IH (upsert_file r p (sanitize_nonmarkdown_output p s)) (S n) q Hok Hq')
        as [r' [E L]].
      exists r'; split; [rewrite E; f_equal; f_equal; lia|].
      rewrite L; apply lookup_upsert_other.
      intros Heq; subst; eapply Hq; [left; reflexivity|reflexivity].
    + apply IH; assumption.
Qed.

Lemma bootstrap_plan_paths : forall pt p tpl,
  In (p, tpl) (bootstrap_plan pt) -> p <> t ".gitignore".
Proof.
  intros pt p tpl; unfold bootstrap_plan.
  destruct (str_eqb pt (t "service")), (str_eqb pt (t "library"));
    intros H; repeat (destruct H as [H|H]; [inversion H; subst; discriminate|]);
    destruct H.
Qed.

Lemma bootstrap_plan_default : forall pt,
  pt <> t "service" -> pt <> t "library" -> bootstrap_plan pt = default_bootstrap_plan.
Proof.
  intros pt H1 H2; unfold bootstrap_plan at 1.
  destruct (str_eqb pt (t "service")) eqn:E1; [apply str_eqb_eq in E1; contradiction|].
  destruct (str_eqb pt (t "library")) eqn:E2; [apply str_eqb_eq in E2; contradiction|].
  reflexivity.
Qed.

(* ------------------------------------------------------------------ *)
(** ** End-to-end runs *)

(** C1 (counterexample): in the end-to-end scenario (library spec, every
    template present) "src/main.x" holds "body" without a final newline, and
    no entry "README.md" holds "# Hi\n": the readme is the rendered template. *)
Lemma scenario_contents_differ :
  handle_generate full_tera (spec_of_type (t "library")) scenario_input = Ok scenario_final
  /\ lookup (t "src/main.x") scenario_final = Some (t "body")
  /\ ~ In (mkFile (t "src/main.x") (t "body" ++ [10%N])) scenario_final
  /\ ~ In (mkFile (t "README.md") (t "# Hi" ++ [10%N])) scenario_final.
Proof.
  split; [vm_compute; reflexivity|split; [vm_compute; reflexivity|split]];
    intros Hin; vm_compute in Hin;
    repeat (destruct Hin as [Hin|Hin]; [discriminate|]); exact Hin.
Qed.

(** C1 (amended): for the scenario's model output and any specification,
    with the first candidate of each infrastructure output present and
    rendering, the artifact is exactly: "src/main.x" with "body" (fence and
    the newline before the closing fence removed), "README.md" with the
    rendered readme template (the model's fenced README block is overwritten),
    "Cargo.toml", "Makefile", ".gitignore", and last the manifest listing the
    five other paths in this order. *)
Theorem scenario_artifact : forall tera spec rc rm rr rg,
  has_template tera "rust/Cargo.toml.template" = true ->
  render tera "rust/Cargo.toml.template" spec = Some rc ->
  has_template tera "rust/Makefile.template" = true ->
  render tera "rust/Makefile.template" spec = Some rm ->
  has_template tera "rust/README.md.template" = true ->
  render tera "rust/README.md.template" spec = Some rr ->
  has_template tera "rust/gitignore.template" = true ->
  render tera "rust/gitignore.template" spec = Some rg ->
  handle_generate tera spec scenario_input =
  Ok [mkFile (t "src/main.x") (t "body");
      mkFile (t "README.md") (sanitize_nonmarkdown_output (t "README.md") rr);
      mkFile (t "Cargo.toml") (sanitize_nonmarkdown_output (t "Cargo.toml") rc);
      mkFile (t "Makefile") (sanitize_nonmarkdown_output (t "Makefile") rm);
      mkFile (t ".gitignore") (sanitize_nonmarkdown_output (t ".gitignore") rg);
      mkFile MANIFEST_PATH
        (manifest_json [t "src/main.x"; t "README.md"; t "Cargo.toml"; t "Makefile";
                        t ".gitignore"])].
Proof.
  intros tera spec rc rm rr rg Hc Rc Hm Rm Hr Rr Hg Rg.
  unfold handle_generate.
  assert (E : package_code_files scenario_input [] =
              ([mkFile (t "src/main.x") (t "body");
                mkFile (t "README.md") (lines ["```md"; "# Hi"; "```"])], 2))
    by (vm_compute; reflexivity).
  rewrite E; clear E.
  rewrite package_infrastructure_files_unfold.
  rewrite (render_first_existing_head tera (plan_candidates 0) spec _ rc eq_refl Hc Rc).
  rewrite (render_first_existing_head tera (plan_candidates 1) spec _ rm eq_refl Hm Rm).
  rewrite (render_first_existing_head tera (plan_candidates 2) spec _ rr eq_refl Hr Rr).
  rewrite (render_first_existing_head tera (plan_candidates 3) spec _ rg eq_refl Hg Rg).
  cbn [bind].
  generalize (sanitize_nonmarkdown_output (t "README.md") rr) as a.
  generalize (sanitize_nonmarkdown_output (t "Cargo.toml") rc) as b.
  generalize (sanitize_nonmarkdown_output (t "Makefile") rm) as c.
  generalize (sanitize_nonmarkdown_output (t ".gitignore") rg) as d.
  intros d c b a; vm_compute; reflexivity.
Qed.

Lemma scenario_artifact_witness :
  exists final,
    handle_generate full_tera (spec_of_type (t "library")) scenario_input = Ok final
    /\ lookup (t "src/main.x") final = Some (t "body")
    /\ length final = 6.
Proof.
  eexists; split;
    [eapply (scenario_artifact full_tera (spec_of_type (t "library"))); reflexivity|].
  split; vm_compute; reflexivity.
Defined.

(** C5: when no candidate of a required infrastructure output (Cargo.toml,
    Makefile, README.md) exists, infrastructure packaging fails and so does
    the run; when only the .gitignore candidates are all missing, the others
    each have a present candidate and the present templates render, the run
    succeeds and its .gitignore entry is the built-in default verbatim. *)
Theorem infrastructure_failure_policy : forall tera spec out,
  ((exists o cs, In (o, cs) infrastructure_plan /\ o <> t ".gitignore"
                 /\ (forall c, In c cs -> has_template tera c = false)) ->
   (forall r, exists e, package_infrastructure_files tera spec r = Err e)
   /\ exists e, handle_generate tera spec out = Err e)
  /\ ((forall c, In c (plan_candidates 3) -> has_template tera c = false) ->
      (forall i, i < 3 -> exists c, In c (plan_candidates i) /\ has_template tera c = true) ->
      renders_ok tera spec ->
      exists final, handle_generate tera spec out = Ok final
                    /\ lookup (t ".gitignore") final = Some default_gitignore).
Proof.
  intros tera spec out; split.
  - intros [o [cs [Hin [Ho Hm]]]].
    assert (Hr : forall r, exists e, package_infrastructure_files tera spec r = Err e)
      by (intros r; eapply infrastructure_loop_missing; eassumption).
    split; [exact Hr|].
    unfold handle_generate; destruct (package_code_files out []) as [r0 n].
    destruct (Hr r0) as [e He]; rewrite He; exists e; reflexivity.
  - intros Hg Hpresent Hok.
    destruct (render_first_existing_ok tera spec _ Hok (Hpresent 0 ltac:(lia))) as [s1 E1].
    destruct (render_first_existing_ok tera spec _ Hok (Hpresent 1 ltac:(lia))) as [s2 E2].
    destruct (render_first_existing_ok tera spec _ Hok (Hpresent 2 ltac:(lia))) as [s3 E3].
    unfold handle_generate; destruct (package_code_files out []) as [r0 n].
    rewrite package_infrastructure_files_unfold, E1, E2, E3.
    rewrite (render_first_existing_missing tera _ spec Hg); cbn [bind].
    rewrite sanitize_default_gitignore.
    set (r1 := upsert_file _ (t ".gitignore") default_gitignore).
    assert (L1 : lookup (t ".gitignore") r1 = Some default_gitignore)
      by apply lookup_upsert_same.
    destruct (Nat.eqb n 0); cbn [bind].
    + unfold package_bootstrap_files.
      destruct (bootstrap_loop_ok tera spec
                  (bootstrap_plan (to_ascii_lowercase (project_type spec))) r1 0
                  (t ".gitignore") Hok (bootstrap_plan_paths _)) as [r2 [E L]].
      rewrite E; cbn [bind fst].
      eexists; split; [reflexivity|].
      unfold append_manifest; apply lookup_app_found; rewrite L; exact L1.
    + eexists; split; [reflexivity|].
      unfold append_manifest; apply lookup_app_found; exact L1.
Qed.

Lemma infrastructure_failure_policy_witness :
  (exists e, handle_generate (tera_without (plan_candidates 0)) (spec_of_type (t "cli"))
               scenario_input = Err e)
  /\ (exists final,
        handle_generate (tera_without (plan_candidates 3)) (spec_of_type (t "cli"))
          scenario_input = Ok final
        /\ lookup (t ".gitignore") final = Some default_gitignore).
Proof.
  split.
  - destruct (infrastructure_failure_policy (tera_without (plan_candidates 0))
                (spec_of_type (t "cli")) scenario_input) as [P _].
    refine (proj2 (P _)).
    exists (t "Cargo.toml"), (plan_candidates 0).
    split; [left; reflexivity|split; [discriminate|]].
    intros c Hc; simpl in Hc; repeat (destruct Hc as [Hc|Hc]; [subst; reflexivity|]);
      destruct Hc.
  - destruct (infrastructure_failure_policy (tera_without (plan_candidates 3))
                (spec_of_type (t "cli")) scenario_input) as [_ P].
    refine (P _ _ _).
    + intros c Hc; simpl in Hc; repeat (destruct Hc as [Hc|Hc]; [subst; reflexivity|]);
        destruct Hc.
    + intros i Hi; destruct i as [|[|[|i]]]; [| | |lia];
        eexists; (split; [left; reflexivity|reflexivity]).
    + intros n _; discriminate.
Defined.

(** C7 (counterexample): the archetype is chosen on the ASCII-lower-cased
    project type, so the declared type "Library" (neither "service" nor
    "library") gets the library skeleton of two files, not the default
    archetype's three, with every bootstrap template present. *)
Lemma bootstrap_capitalised_library :
  project_type (spec_of_type (t "Library")) <> t "service"
  /\ project_type (spec_of_type (t "Library")) <> t "library"
  /\ forallb (template_present full_tera) (bootstrap_plan (t "library")) = true
  /\ match package_bootstrap_files full_tera (spec_of_type (t "Library")) [] with
     | Ok (_, n) => n = 2
     | Err _ => False
     end
  /\ length default_bootstrap_plan = 3.
Proof.
  split; [discriminate|split; [discriminate|split; [reflexivity|split]]];
    vm_compute; reflexivity.
Qed.

(** C7 (amended): for every specification, once infrastructure packaging has
    succeeded, the run appends the manifest to the bootstrap output exactly
    when block extraction accepted no block, and to the infrastructure result
    otherwise; for a project type whose ASCII lower-casing is neither
    "service" nor "library", the bootstrap step succeeds (present templates
    rendering), skips missing templates, and reports as many files as
    templates of the default list are present: the list's length, 3, when
    all are. *)
Theorem bootstrap_default_archetype : forall tera spec out r1,
  package_infrastructure_files tera spec (fst (package_code_files out [])) = Ok r1 ->
  handle_generate tera spec out
  = (if Nat.eqb (length (slice_file_blocks out)) 0
     then bind (package_bootstrap_files tera spec r1)
               (fun rc => Ok (append_manifest (fst rc)))
     else Ok (append_manifest r1))
  /\ (to_ascii_lowercase (project_type spec) <> t "service" ->
      to_ascii_lowercase (project_type spec) <> t "library" ->
      renders_ok tera spec ->
      exists r2,
        package_bootstrap_files tera spec r1
        = Ok (r2, length (filter (template_present tera) default_bootstrap_plan))
        /\ handle_generate tera spec out
           = Ok (append_manifest
                   (if Nat.eqb (length (slice_file_blocks out)) 0 then r2 else r1)))
  /\ (forallb (template_present tera) default_bootstrap_plan = true ->
      length (filter (template_present tera) default_bootstrap_plan)
      = length default_bootstrap_plan)
  /\ length default_bootstrap_plan = 3.
Proof.
  intros tera spec out r1 Hi.
  assert (Hg : handle_generate tera spec out
               = (if Nat.eqb (length (slice_file_blocks out)) 0
                  then bind (package_bootstrap_files tera spec r1)
                            (fun rc => Ok (append_manifest (fst rc)))
                  else Ok (append_manifest r1))).
  { unfold handle_generate.
    change (package_code_files out []) with
      (fold_left (fun r '(p, c) => upsert_file r p c) (slice_file_blocks out) [],
       length (slice_file_blocks out)) in *.
    cbn [fst] in Hi; cbv beta iota; rewrite Hi; cbn [bind].
    destruct (Nat.eqb (length (slice_file_blocks out)) 0); [|reflexivity].
    destruct (package_bootstrap_files tera spec r1); reflexivity. }
  split; [exact Hg|split; [|split; [|reflexivity]]].
  - intros Hs Hl Hok.
    destruct (bootstrap_loop_ok tera spec default_bootstrap_plan r1 0 (t ".gitignore") Hok)
      as [r2 [E _]]; [intros p tpl Hin; eapply bootstrap_plan_paths; exact Hin|].
    assert (E' : package_bootstrap_files tera spec r1
                 = Ok (r2, length (filter (template_present tera) default_bootstrap_plan)))
      by (unfold package_bootstrap_files; rewrite (bootstrap_plan_default _ Hs Hl); exact E).
    exists r2; split; [exact E'|].
    rewrite Hg; destruct (Nat.eqb (length (slice_file_blocks out)) 0);
      [rewrite E'|]; reflexivity.
  - intros H; rewrite forallb_filter_id by exact H; reflexivity.
Qed.

(** The cli specification, every template present, on an empty model output. *)
Lemma bootstrap_default_archetype_witness :
  exists r2,
    package_bootstrap_files full_tera (spec_of_type (t "cli"))
      (match package_infrastructure_files full_tera (spec_of_type (t "cli"))
               (fst (package_code_files [] [])) with Ok r => r | Err _ => [] end)
    = Ok (r2, 3)
    /\ length default_bootstrap_plan = 3.
Proof.
  destruct (bootstrap_default_archetype full_tera (spec_of_type (t "cli")) []
              (match package_infrastructure_files full_tera (spec_of_type (t "cli"))
                       (fst (package_code_files [] [])) with Ok r => r | Err _ => [] end))
    as [_ [Hd [Hall H3]]]; [vm_compute; reflexivity|].
  destruct Hd as [r2 [E _]]; [discriminate|discriminate|intros n _; discriminate|].
  exists r2; split; [|exact H3].
  rewrite Hall in E by (vm_compute; reflexivity).
  rewrite H3 in E.
  exact E.
Defined.

(* ------------------------------------------------------------------ *)
(** ** Further properties of the packaging code, the start-up check and the client *)

Lemma mt_advances : forall r s i cap k x,
  mt r s i cap k = Some x -> exists j c, i <= j /\ k j c = Some x.
Proof.
  induction r as [p|r1 IH1 r2 IH2|r1 IH|r1 IH| | | | |r1 IH];
    intros s i cap k x H; simpl in H.
  - destruct (nth_error s i) as [c|]; [|discriminate].
    destruct (p c); [|discriminate]; exists (S i), cap; split; [lia|assumption].
  - apply IH1 in H as [j [c [Hj H]]].
    apply IH2 in H as [j' [c' [Hj' H]]].
    exists j', c'; split; [lia|assumption].
  - match type of H with context [?L (length s - i)] => set (LOOP := L) in H end.
    assert (G : forall n i0 c0, LOOP n i0 c0 = Some x ->
                                exists j c, i0 <= j /\ k j c = Some x).
    { induction n as [|n IHn]; intros i0 c0 G; unfold LOOP in G; simpl in G;
        [exists i0, c0; split; [lia|assumption]|]; fold LOOP in G.
      destruct (mt r1 s i0 c0 _) as [y|] eqn:E.
      + inversion G; subst y.
        apply IH in E as [j [c [Hj E]]].
        destruct (Nat.ltb i0 j) eqn:L; [|discriminate].
        apply Nat.ltb_lt in L.
        apply IHn in E as [j' [c' [Hj' E]]].
        exists j', c'; split; [lia|assumption].
      + exists i0, c0; split; [lia|assumption]. }
    exact (G (S (length s - i)) i cap H).
  - destruct (mt r1 s i cap k) as [y|] eqn:E.
    + inversion H; subst y; apply IH in E; exact E.
    + exists i, cap; split; [lia|assumption].
  - destruct (Nat.eqb i 0); [exists i, cap; split; [lia|assumption]|discriminate].
  - destruct (Nat.eqb i (length s)); [exists i, cap; split; [lia|assumption]|discriminate].
  - destruct i as [|i']; [exists 0, cap; split; [lia|assumption]|].
    destruct (N.eqb _ 10); [exists (S i'), cap; split; [lia|assumption]|discriminate].
  - destruct (nth_error s i) as [c|]; [|exists i, cap; split; [lia|assumption]].
    destruct (N.eqb c 10); [exists i, cap; split; [lia|assumption]|discriminate].
  - apply IH in H as [j [c [Hj H]]]; exists j, (Some (i, j)); split; assumption.
Qed.

Lemma find_from_ordered : forall r s i fuel a b c,
  find_from r s i fuel = Some (a, b, c) -> i <= a /\ a <= b.
Proof.
  intros r s i fuel; revert i; induction fuel as [|f IH]; intros i a b c H;
    [discriminate|]; simpl in H.
  destruct (mt r s i None _) as [[j c']|] eqn:E.
  - inversion H; subst.
    apply mt_advances in E as [j' [c'' [Hj E]]]; inversion E; subst; lia.
  - apply IH in H; lia.
Qed.

Lemma replace_crlf_length : forall s, length (replace_crlf s) <= length s.
Proof.
  assert (G : forall n s, length s <= n -> length (replace_crlf s) <= length s).
  { induction n as [|n IH]; intros s Hs.
    - destruct s; [simpl; lia|simpl in Hs; lia].
    - destruct s as [|c s]; [simpl; lia|].
      simpl replace_crlf.
      repeat match goal with |- context [match ?x with _ => _ end] => destruct x end;
        match goal with |- context [replace_crlf ?u] =>
          pose proof (IH u ltac:(simpl in *; lia)) end; simpl in *; lia. }
  intros s; apply (G (length s)); lia.
Qed.

Lemma replace_char_length : forall s,
  length (replace_char 13%N [10%N] s) = length s.
Proof.
  induction s as [|c s IH]; [reflexivity|].
  rewrite replace_char_cons, length_app; fold (replace_char 13%N [10%N] s).
  rewrite IH; destruct (N.eqb c 13); reflexivity.
Qed.

Lemma normalize_newlines_length : forall s, length (normalize_newlines s) <= length s.
Proof.
  intros s; unfold normalize_newlines; destruct (existsb _ s); [|lia].
  rewrite replace_char_length; apply replace_crlf_length.
Qed.

Lemma strip_bom_length : forall s, length (strip_bom s) <= length s.
Proof. intros [|c s]; simpl; [lia|]; destruct (N.eqb c BOM); simpl; lia. Qed.

Lemma replace_empty_length : forall r s, length (replace_empty r s) <= length s.
Proof.
  intros r s; unfold replace_empty, find.
  destruct (find_from r s 0 _) as [[[i j] c]|] eqn:E; [|lia].
  apply find_from_ordered in E.
  rewrite length_app, length_firstn, length_skipn; lia.
Qed.

Lemma strip_leading_file_marker_length : forall s,
  length (strip_leading_file_marker s) <= length s.
Proof.
  intros s; unfold strip_leading_file_marker; destruct (is_match _ _);
    [apply replace_empty_length|lia].
Qed.

Lemma strip_full_file_fence_length : forall s inner,
  strip_full_file_fence s = Some inner -> length inner <= length s.
Proof.
  intros s inner; unfold strip_full_file_fence.
  destruct (find FULL_FENCE_RE s) as [[[i j] [[a b]|]]|]; intros H; inversion H; subst.
  unfold slice; rewrite length_firstn, length_skipn; lia.
Qed.

(** Sanitization never lengthens a content: BOM stripping, newline normalisation, marker removal and fence unwrapping only drop characters. *)
Theorem sanitize_never_lengthens : forall p c,
  length (sanitize_nonmarkdown_output p c) <= length c.
Proof.
  intros p c; unfold sanitize_nonmarkdown_output.
  pose proof (strip_bom_length c) as H1.
  pose proof (normalize_newlines_length (strip_bom c)) as H2.
  destruct (is_markdown_like p); [lia|].
  pose proof (strip_leading_file_marker_length (normalize_newlines (strip_bom c))) as H3.
  destruct (strip_full_file_fence _) as [inner|] eqn:E; [|lia].
  apply strip_full_file_fence_length in E.
  pose proof (normalize_newlines_length inner); lia.
Qed.

Lemma existsb_firstn : forall {A} (f : A -> bool) n l,
  existsb f l = false -> existsb f (firstn n l) = false.
Proof.
  intros A f n l; revert n; induction l as [|x l IH]; intros [|n] H; simpl in *;
    try reflexivity.
  apply orb_false_iff in H as [H1 H2]; rewrite H1, IH; auto.
Qed.

Lemma existsb_skipn : forall {A} (f : A -> bool) n l,
  existsb f l = false -> existsb f (skipn n l) = false.
Proof.
  intros A f n l; revert n; induction l as [|x l IH]; intros [|n] H; simpl in *;
    try reflexivity; try assumption.
  apply orb_false_iff in H as [H1 H2]; apply IH; assumption.
Qed.

Lemma strip_leading_file_marker_no_cr : forall s,
  existsb (N.eqb 13) s = false ->
  existsb (N.eqb 13) (strip_leading_file_marker s) = false.
Proof.
  intros s H; unfold strip_leading_file_marker, replace_empty.
  destruct (is_match _ _); [|assumption].
  destruct (find _ _) as [[[i j] c]|]; [|assumption].
  rewrite existsb_app, existsb_firstn, existsb_skipn by assumption; reflexivity.
Qed.

Lemma sanitize_no_cr_aux : forall p c,
  existsb (N.eqb 13) (sanitize_nonmarkdown_output p c) = false.
Proof.
  intros p c; unfold sanitize_nonmarkdown_output.
  destruct (is_markdown_like p); [apply normalize_newlines_no_cr|].
  destruct (strip_full_file_fence _); [apply normalize_newlines_no_cr|].
  apply strip_leading_file_marker_no_cr, normalize_newlines_no_cr.
Qed.

Lemma in_replace_char_backslash : forall x s,
  In x (replace_char 92%N [47%N] s) -> x <> 92%N.
Proof.
  intros x s; induction s as [|c s IH]; intros H; [destruct H|].
  rewrite replace_char_cons in H; fold (replace_char 92%N [47%N] s) in H.
  apply in_app_or in H as [H|H]; [|apply IH, H].
  destruct (N.eqb c 92) eqn:E; destruct H as [H|[]]; subst; [discriminate|].
  intros ->; discriminate.
Qed.

Lemma in_trim_start : forall x s, In x (trim_start s) -> In x s.
Proof.
  intros x s; induction s as [|c s IH]; simpl; [tauto|].
  destruct (is_ws c); [intros H; right; apply IH, H|tauto].
Qed.

Lemma in_trim : forall x s, In x (trim s) -> In x s.
Proof.
  intros x s H; unfold trim in H.
  apply in_rev, in_trim_start, in_rev, in_trim_start in H; exact H.
Qed.

Lemma in_skipn_l : forall {A} (x : A) n l, In x (skipn n l) -> In x l.
Proof.
  intros A x n l H; rewrite <- (firstn_skipn n l); apply in_or_app; right; exact H.
Qed.

Lemma sanitize_path_safe : forall raw p,
  sanitize_path raw = Some p ->
  is_absolute p = false /\ starts_with (t "templates/") p = false
  /\ has_parent_dir p = false /\ ~ In 92%N p.
Proof.
  intros raw p; unfold sanitize_path.
  set (q := trim (replace_char 92%N [47%N] raw)).
  assert (Hq : ~ In 92%N q)
    by (intros H; apply in_trim, in_replace_char_backslash in H; apply H; reflexivity).
  destruct (str_eqb q []); [discriminate|].
  set (q' := match strip_prefix (t "./") q with Some s => s | None => q end).
  assert (Hq' : ~ In 92%N q').
  { unfold q', strip_prefix; destruct (starts_with _ q); [|exact Hq].
    intros H; apply Hq; eapply in_skipn_l; exact H. }
  destruct (is_absolute q') eqn:E1; [discriminate|].
  destruct (starts_with _ q') eqn:E2; [discriminate|].
  destruct (has_parent_dir q') eqn:E3; [discriminate|].
  intros H; inversion H; subst p; auto.
Qed.

(** PathGuard returns the empty path exactly for inputs that trim (after backslash conversion) to "./": the emptiness check runs before the "./" prefix is stripped. *)
Theorem sanitize_path_empty_result : forall raw,
  sanitize_path raw = Some [] <-> trim (replace_char 92%N [47%N] raw) = t "./".
Proof.
  intros raw; unfold sanitize_path; cbv zeta.
  generalize (trim (replace_char 92%N [47%N] raw)) as q; intros q; split.
  - intros H; destruct (str_eqb q []) eqn:E0; [discriminate|].
    remember (match strip_prefix (t "./") q with Some s => s | None => q end) as q' eqn:Hq'.
    assert (q' = []) as ->
      by (destruct (is_absolute q'), (starts_with (t "templates/") q'), (has_parent_dir q');
          inversion H; reflexivity).
    unfold strip_prefix in Hq'.
    destruct (starts_with (t "./") q) eqn:Es.
    + change (t "./") with [46%N; 47%N] in Es, Hq'.
      destruct q as [|a [|b rest]]; cbn [starts_with skipn length] in Es, Hq';
        [discriminate|rewrite andb_false_r in Es; discriminate|].
      apply andb_prop in Es as [Ea Es]; apply andb_prop in Es as [Eb _].
      apply N.eqb_eq in Ea, Eb; subst; reflexivity.
    + subst q; discriminate.
  - intros ->; reflexivity.
Qed.

(** Every path PathGuard accepts is relative, outside templates/, free of ".." segments and of backslashes. *)
Theorem sanitize_path_output_safe : forall raw p,
  sanitize_path raw = Some p ->
  is_absolute p = false /\ starts_with (t "templates/") p = false
  /\ has_parent_dir p = false /\ ~ In 92%N p.
Proof. exact sanitize_path_safe. Qed.

Lemma slice_blocks_from_paths : forall out hs q c,
  In (q, c) (slice_blocks_from out hs) -> exists raw, sanitize_path raw = Some q.
Proof.
  intros out hs; induction hs as [|[[st en] raw] hs IH]; intros q c H; [destruct H|].
  simpl in H.
  destruct (sanitize_path raw) as [p|] eqn:E; [|eapply IH; eassumption].
  destruct H as [H|H]; [inversion H; subst; eauto|eapply IH; eassumption].
Qed.

Lemma in_paths_upsert : forall fs p c q,
  In q (map path (upsert_file fs p c)) <-> In q (map path fs) \/ q = p.
Proof.
  intros fs p c q; rewrite upsert_file_paths.
  destruct (existsb (fun x => str_eqb x p) (map path fs)) eqn:E.
  - split; [tauto|intros [H|H]; [exact H|subst]].
    apply existsb_exists in E as [x [Hx Ex]]; apply str_eqb_eq in Ex; subst; exact Hx.
  - rewrite in_app_iff; simpl; split; intros [H|H]; auto; destruct H as [H|[]]; auto.
Qed.

Lemma fold_upsert_paths : forall blocks r q,
  In q (map path (fold_left (fun r '(p, c) => upsert_file r p c) blocks r)) ->
  In q (map path r) \/ In q (map fst blocks).
Proof.
  induction blocks as [|[p c] blocks IH]; intros r q H; simpl in *; [auto|].
  apply IH in H as [H|H]; [|auto].
  apply in_paths_upsert in H as [H|H]; auto.
Qed.

(** Every path of the code stage's artifact satisfies the PathGuard rules. *)
Theorem code_stage_paths_safe : forall out q,
  In q (map path (fst (package_code_files out []))) ->
  is_absolute q = false /\ starts_with (t "templates/") q = false
  /\ has_parent_dir q = false /\ ~ In 92%N q.
Proof.
  intros out q H; unfold package_code_files in H; simpl in H.
  apply fold_upsert_paths in H as [[]|H].
  apply in_map_iff in H as [[q' c] [Hq Hin]]; simpl in Hq; subst q'.
  apply slice_blocks_from_paths in Hin as [raw Hraw].
  eapply sanitize_path_safe; exact Hraw.
Qed.

Lemma fold_upsert_lookup : forall blocks r p,
  lookup p (fold_left (fun r '(q, c) => upsert_file r q c) blocks r)
  = match last_content p blocks with Some c => Some c | None => lookup p r end.
Proof.
  induction blocks as [|[q c] blocks IH]; intros r p; simpl; [reflexivity|].
  rewrite IH; destruct (last_content p blocks); [reflexivity|].
  destruct (str_eqb q p) eqn:E.
  - apply str_eqb_eq in E; subst; apply lookup_upsert_same.
  - apply lookup_upsert_other; intros ->; rewrite str_eqb_refl in E; discriminate.
Qed.

(** After the code stage, a path holds the content of the last extracted block at that path; paths without a block keep their earlier content. *)
Theorem code_stage_last_block_wins : forall out r p,
  lookup p (fst (package_code_files out r))
  = match last_content p (slice_file_blocks out) with
    | Some c => Some c
    | None => lookup p r
    end.
Proof. intros out r p; unfold package_code_files; simpl; apply fold_upsert_lookup. Qed.

Lemma header_mt_none : forall s i k,
  ~ In 35%N s -> mt FILE_HEADER_RE s i None k = None.
Proof.
  intros s i k Hs; unfold FILE_HEADER_RE; cbn [seqs mt].
  assert (Hc : forall j c k', mt (lit (t "###")) s j c k' = None).
  { intros j c k'; cbn [t list_ascii_of_string map lit mt ch].
    destruct (nth_error s j) as [x|] eqn:E; [|reflexivity].
    apply nth_error_In in E.
    destruct (N.eqb _ x) eqn:Ex; [|reflexivity].
    apply N.eqb_eq in Ex; vm_compute in Ex; subst x; contradiction. }
  destruct i as [|i]; [apply Hc|].
  destruct (N.eqb _ 10); [apply Hc|reflexivity].
Qed.

Lemma header_find_none : forall s i fuel,
  ~ In 35%N s -> find_from FILE_HEADER_RE s i fuel = None.
Proof.
  intros s i fuel Hs; revert i; induction fuel as [|f IH]; intros i; [reflexivity|].
  cbn [find_from]; rewrite header_mt_none by assumption; apply IH.
Qed.

(** A model output without any '#' character yields no block, so the run packages the infrastructure files, then the bootstrap skeleton, then the manifest. *)
Theorem no_header_runs_bootstrap : forall tera spec out,
  ~ In 35%N out ->
  slice_file_blocks out = []
  /\ handle_generate tera spec out
     = (let* r1 := package_infrastructure_files tera spec [] in
        let* rc := package_bootstrap_files tera spec r1 in
        Ok (append_manifest (fst rc))).
Proof.
  intros tera spec out Hs.
  assert (Hb : slice_file_blocks out = []).
  { unfold slice_file_blocks, headers_of, captures_iter.
    cbn [captures_from]; rewrite header_find_none by assumption; reflexivity. }
  split; [exact Hb|].
  unfold handle_generate, package_code_files; rewrite Hb; cbn [fold_left length Nat.eqb].
  destruct (package_infrastructure_files tera spec []) as [r1|e]; cbn [bind]; [|reflexivity].
  destruct (package_bootstrap_files tera spec r1); reflexivity.
Qed.

Lemma no_header_runs_bootstrap_witness :
  ~ In 35%N (t "fn main() {}") /\ slice_file_blocks (t "fn main() {}") = [].
Proof.
  assert (H : ~ In 35%N (t "fn main() {}"))
    by (vm_compute; intros H; repeat (destruct H as [H|H]; [discriminate|]); exact H).
  split; [exact H|].
  exact (proj1 (no_header_runs_bootstrap full_tera (spec_of_type (t "cli")) _ H)).
Defined.

Lemma find_app_absent : forall {A} (f : A -> bool) pre l,
  (forall x, In x pre -> f x = false) -> List.find f (pre ++ l) = List.find f l.
Proof.
  intros A f pre l H; induction pre as [|x pre IH]; [reflexivity|].
  simpl; rewrite (H x (or_introl eq_refl)); apply IH; intros y Hy; apply H; right; exact Hy.
Qed.

(** The first present candidate decides the result: its rendering, or a render error; later candidates are never consulted. *)
Theorem render_first_existing_first_present : forall tera pre n post ctx,
  (forall c, In c pre -> has_template tera c = false) ->
  has_template tera n = true ->
  render_first_existing tera (pre ++ n :: post) ctx
  = match render tera n ctx with Some s => Ok s | None => Err (RenderFailed n) end.
Proof.
  intros tera pre n post ctx Hpre Hn; unfold render_first_existing.
  rewrite find_app_absent by assumption; simpl; rewrite Hn; reflexivity.
Qed.

Lemma render_first_existing_first_present_witness :
  render_first_existing (mkTera ["rust/Makefile.tera"; "shared/Makefile.template"]
                           (fun n _ => if String.eqb n "rust/Makefile.tera" then None
                                       else Some []))
    (plan_candidates 1) (spec_of_type [])
  = Err (RenderFailed "rust/Makefile.tera").
Proof.
  exact (render_first_existing_first_present
           (mkTera ["rust/Makefile.tera"; "shared/Makefile.template"]
              (fun n _ => if String.eqb n "rust/Makefile.tera" then None else Some []))
           ["rust/Makefile.template"] "rust/Makefile.tera"
           ["shared/Makefile.template"; "shared/Makefile.tera"] (spec_of_type [])
           ltac:(intros c [<-|[]]; reflexivity) eq_refl).
Defined.

(** Whatever makes the .gitignore template lookup fail (no candidate, or the first present one failing to render), the other outputs being rendered, the .gitignore entry is the built-in default. *)
Theorem gitignore_lookup_failure_uses_default : forall tera spec r s1 s2 s3 e,
  render_first_existing tera (plan_candidates 0) spec = Ok s1 ->
  render_first_existing tera (plan_candidates 1) spec = Ok s2 ->
  render_first_existing tera (plan_candidates 2) spec = Ok s3 ->
  render_first_existing tera (plan_candidates 3) spec = Err e ->
  exists r', package_infrastructure_files tera spec r = Ok r'
             /\ lookup (t ".gitignore") r' = Some default_gitignore.
Proof.
  intros tera spec r s1 s2 s3 e E1 E2 E3 E4.
  rewrite package_infrastructure_files_unfold, E1, E2, E3, E4; cbn [bind].
  rewrite sanitize_default_gitignore.
  eexists; split; [reflexivity|apply lookup_upsert_same].
Qed.

Lemma infrastructure_loop_shape : forall tera spec plan r r',
  infrastructure_loop tera spec plan r = Ok r' ->
  (exists extra, map path r' = map path r ++ extra)
  /\ (forall i f, nth_error r i = Some f -> ~ In (path f) (map fst plan) ->
                  nth_error r' i = Some f)
  /\ (forall q, In q (map path r') <-> In q (map path r) \/ In q (map fst plan)).
Proof.
  intros tera spec plan; induction plan as [|[o cs] plan IH]; intros r r' E; simpl in E.
  - inversion E; subst; split; [exists []; rewrite app_nil_r; reflexivity|].
    split; [auto|]; simpl; tauto.
  - destruct (if str_eqb o (t ".gitignore") then _ else _) as [s|e]; simpl in E;
      [|discriminate].
    apply IH in E as [[extra Ex] [Hn Hin]].
    split; [|split].
    + destruct (upsert_file_paths_extend r o (sanitize_nonmarkdown_output o s)) as [e0 E0].
      exists (e0 ++ extra); rewrite Ex, E0, app_assoc; reflexivity.
    + intros i f Hi Hf; apply Hn; [apply upsert_file_keeps_others; [exact Hi|]|];
        intros H; apply Hf; simpl; auto.
    + intros q; rewrite Hin, in_paths_upsert; simpl; intuition (subst; auto).
Qed.

(** Infrastructure packaging keeps every earlier entry at its position, only appends new paths, leaves entries at other paths unchanged, and the paths of its result are the earlier ones plus the four infrastructure paths. *)
Theorem infrastructure_keeps_entries : forall tera spec r r',
  package_infrastructure_files tera spec r = Ok r' ->
  (exists extra, map path r' = map path r ++ extra)
  /\ (forall i f, nth_error r i = Some f -> ~ In (path f) infrastructure_paths ->
                  nth_error r' i = Some f)
  /\ (forall q, In q (map path r') <-> In q (map path r) \/ In q infrastructure_paths).
Proof. intros tera spec r r' E; apply infrastructure_loop_shape in E; exact E. Qed.

Lemma bootstrap_loop_err : forall tera spec files r n,
  (exists e, bootstrap_loop tera spec files r n = Err e)
  <-> exists p tpl, In (p, tpl) files /\ has_template tera tpl = true
                    /\ render tera tpl spec = None.
Proof.
  intros tera spec files; induction files as [|[p tpl] files IH]; intros r n; simpl.
  - split; [intros [e E]; discriminate|intros [p [tpl [[] _]]]].
  - destruct (has_template tera tpl) eqn:Ht; simpl.
    + destruct (render tera tpl spec) as [s|] eqn:Hr.
      * rewrite IH; split.
        -- intros [p' [tpl' [H1 H2]]]; exists p', tpl'; auto.
        -- intros [p' [tpl' [[H1|H1] [H2 H3]]]]; [inversion H1; subst; congruence|].
           exists p', tpl'; auto.
      * split; [intros _; exists p, tpl; auto|intros _; eexists; reflexivity].
    + rewrite IH; split.
      * intros [p' [tpl' [H1 H2]]]; exists p', tpl'; auto.
      * intros [p' [tpl' [[H1|H1] [H2 H3]]]]; [inversion H1; subst; congruence|].
        exists p', tpl'; auto.
Qed.

(** Bootstrap packaging fails exactly when some template of the selected list is present and fails to render; missing templates never make it fail. *)
Theorem bootstrap_fails_iff_render_failure : forall tera spec r,
  (exists e, package_bootstrap_files tera spec r = Err e)
  <-> exists p tpl, In (p, tpl) (bootstrap_plan (to_ascii_lowercase (project_type spec)))
                    /\ has_template tera tpl = true /\ render tera tpl spec = None.
Proof. intros tera spec r; apply bootstrap_loop_err. Qed.

Lemma bootstrap_loop_paths : forall tera spec files r n r' n',
  bootstrap_loop tera spec files r n = Ok (r', n') ->
  forall q, In q (map path r') <-> In q (map path r) \/ In q (map fst (filter (template_present tera) files)).
Proof.
  intros tera spec files; induction files as [|[p tpl] files IH];
    intros r n r' n' E q; simpl in E.
  - inversion E; subst; simpl; tauto.
  - unfold template_present at 1; simpl.
    destruct (has_template tera tpl) eqn:Ht; simpl in *.
    + destruct (render tera tpl spec) as [s|]; [|discriminate].
      rewrite (IH _ _ _ _ E q), in_paths_upsert; intuition (subst; auto).
    + apply (IH _ _ _ _ E q).
Qed.

Lemma manifest_not_in_plans : forall pt,
  ~ In MANIFEST_PATH infrastructure_paths /\ ~ In MANIFEST_PATH (map fst (bootstrap_plan pt)).
Proof.
  intros pt; split.
  - vm_compute; intros H; repeat (destruct H as [H|H]; [discriminate|]); exact H.
  - unfold bootstrap_plan; destruct (str_eqb pt (t "service")), (str_eqb pt (t "library"));
      vm_compute; intros H; repeat (destruct H as [H|H]; [discriminate|]); exact H.
Qed.

Lemma filter_map_fst_incl : forall {B} (f : str * B -> bool) l q,
  In q (map fst (filter f l)) -> In q (map fst l).
Proof.
  intros B f l q H; apply in_map_iff in H as [x [Hx Hin]].
  apply filter_In in Hin as [Hin _]; apply in_map_iff; eauto.
Qed.

(** The stages after the code stage: the artifact before the manifest. *)
Lemma handle_generate_stages : forall tera spec out final,
  handle_generate tera spec out = Ok final ->
  exists r1 before,
    package_infrastructure_files tera spec (fst (package_code_files out [])) = Ok r1
    /\ final = append_manifest before
    /\ NoDup (map path before)
    /\ (forall q, In q (map path before) ->
                  In q (map path r1) \/ In q (map fst (bootstrap_plan
                                          (to_ascii_lowercase (project_type spec)))))
    /\ (forall q, In q (map path r1) -> In q (map path before)).
Proof.
  intros tera spec out final E; unfold handle_generate in E.
  pose proof (package_code_files_nodup out [] (NoDup_nil _)) as N0.
  destruct (package_code_files out []) as [r0 n]; simpl fst in *.
  destruct (package_infrastructure_files tera spec r0) as [r1|e] eqn:E1; cbn [bind] in E;
    [|discriminate].
  pose proof (infrastructure_loop_nodup _ _ _ _ _ N0 E1) as N1.
  exists r1; destruct (Nat.eqb n 0).
  - unfold package_bootstrap_files in E.
    destruct (bootstrap_loop _ _ _ r1 0) as [[r2 n2]|e] eqn:E2; cbn [bind fst] in E;
      [|discriminate].
    inversion E; subst final.
    exists r2; split; [reflexivity|split; [reflexivity|split; [|split]]].
    + eapply bootstrap_loop_nodup; eassumption.
    + intros q Hq; apply (bootstrap_loop_paths _ _ _ _ _ _ _ E2 q) in Hq as [Hq|Hq]; auto.
      right; eapply filter_map_fst_incl; exact Hq.
    + intros q Hq; apply (bootstrap_loop_paths _ _ _ _ _ _ _ E2 q); auto.
  - cbn [bind] in E; inversion E; subst final.
    exists r1; repeat split; auto.
Qed.

(** A successful run's artifact has pairwise distinct paths exactly when the code stage packaged no block at ".spex_manifest.json". *)
Theorem handle_generate_unique_iff_no_manifest_block : forall tera spec out final,
  handle_generate tera spec out = Ok final ->
  (NoDup (map path final) <-> ~ In MANIFEST_PATH (map path (fst (package_code_files out [])))).
Proof.
  intros tera spec out final E.
  destruct (handle_generate_stages _ _ _ _ E) as [r1 [before [E1 [-> [N [Hb Hf]]]]]].
  destruct (manifest_not_in_plans (to_ascii_lowercase (project_type spec))) as [Mi Mb].
  apply infrastructure_loop_shape in E1 as [_ [_ Hin]].
  split.
  - intros Hnd Hc.
    unfold append_manifest in Hnd; rewrite map_app in Hnd; simpl in Hnd.
    apply NoDup_remove_2 in Hnd; rewrite app_nil_r in Hnd.
    apply Hnd, Hf, Hin; left; exact Hc.
  - intros Hc; apply append_manifest_nodup; [exact N|].
    intros Hm; apply Hb in Hm as [Hm|Hm]; [|contradiction].
    apply Hin in Hm as [Hm|Hm]; contradiction.
Qed.

(** Every successful run's artifact has entries for Cargo.toml, Makefile, README.md and .gitignore. *)
Theorem handle_generate_has_infrastructure : forall tera spec out final,
  handle_generate tera spec out = Ok final ->
  forall q, In q infrastructure_paths -> In q (map path final).
Proof.
  intros tera spec out final E q Hq.
  destruct (handle_generate_stages _ _ _ _ E) as [r1 [before [E1 [-> [_ [_ Hf]]]]]].
  apply infrastructure_loop_shape in E1 as [_ [_ Hin]].
  unfold append_manifest; rewrite map_app; apply in_or_app; left.
  apply Hf, Hin; right; exact Hq.
Qed.

Lemma ensure_required_templates_ok : forall tera,
  ensure_required_templates tera = inl tt ->
  forall n, In n REQUIRED_TEMPLATES -> has_template tera n = true.
Proof.
  intros tera E n Hn; unfold ensure_required_templates in E.
  destruct (filter _ REQUIRED_TEMPLATES) eqn:F; [|discriminate].
  destruct (has_template tera n) eqn:H; [reflexivity|].
  assert (In n (filter (fun n => negb (has_template tera n)) REQUIRED_TEMPLATES))
    by (apply filter_In; rewrite H; auto).
  rewrite F in *; contradiction.
Qed.

(** With the templates required at server start-up present and every loaded template rendering, a packaging run always succeeds. *)
Theorem required_templates_guarantee_run : forall tera spec out,
  ensure_required_templates tera = inl tt -> renders_ok tera spec ->
  exists final, handle_generate tera spec out = Ok final.
Proof.
  intros tera spec out E Hok.
  pose proof (ensure_required_templates_ok tera E) as Hreq.
  assert (Hi : forall i n, i < 3 -> hd_error (plan_candidates i) = Some n ->
                           In n REQUIRED_TEMPLATES ->
                           exists s, render_first_existing tera (plan_candidates i) spec = Ok s).
  { intros i n _ Hh Hn; apply render_first_existing_ok; [exact Hok|].
    exists n; split; [|apply Hreq, Hn].
    destruct (plan_candidates i); [discriminate|]; inversion Hh; left; reflexivity. }
  destruct (Hi 0 "rust/Cargo.toml.template" ltac:(lia) eq_refl ltac:(simpl; auto)) as [s1 E1].
  destruct (Hi 1 "rust/Makefile.template" ltac:(lia) eq_refl ltac:(simpl; auto)) as [s2 E2].
  destruct (Hi 2 "rust/README.md.template" ltac:(lia) eq_refl ltac:(simpl; auto)) as [s3 E3].
  unfold handle_generate; destruct (package_code_files out []) as [r0 n].
  assert (exists r1, package_infrastructure_files tera spec r0 = Ok r1) as [r1 Er1].
  { rewrite package_infrastructure_files_unfold, E1, E2, E3; cbn [bind].
    destruct (render_first_existing tera (plan_candidates 3) spec); eexists; reflexivity. }
  rewrite Er1; cbn [bind].
  destruct (Nat.eqb n 0); cbn [bind]; [|eexists; reflexivity].
  unfold package_bootstrap_files.
  destruct (bootstrap_loop_ok tera spec
              (bootstrap_plan (to_ascii_lowercase (project_type spec))) r1 0
              (t ".gitignore") Hok (bootstrap_plan_paths _)) as [r2 [E2' _]].
  rewrite E2'; eexists; reflexivity.
Qed.

Lemma index_key_present : forall k v pre post,
  ~ In k (map fst pre) -> index_key k (VObject (pre ++ (k, v) :: post)) = v.
Proof.
  intros k v pre post H; unfold index_key.
  induction pre as [|[k' v'] pre IH]; simpl.
  - rewrite str_eqb_refl; reflexivity.
  - destruct (str_eqb k' k) eqn:E; [apply str_eqb_eq in E; subst; simpl in H; tauto|].
    apply IH; intros Hk; apply H; right; exact Hk.
Qed.

(** The text of a chat-completions answer (choices[0].message.content) or of
    a generateContent answer (candidates[0].content.parts[0].text) is
    returned unchanged, whatever other fields and list elements surround it
    (an object holding each key once). *)
Theorem parse_response_round_trip :
  (forall s top1 top2 ch1 ch2 choices msg1 msg2,
     ~ In (t "choices") (map fst top1) -> ~ In (t "message") (map fst ch1) ->
     ~ In (t "content") (map fst msg1) ->
     parse_response (t "openai")
       (VObject (top1 ++ (t "choices",
                          VArray (VObject (ch1 ++ (t "message",
                                                   VObject (msg1 ++ (t "content", VString s)
                                                                 :: msg2)) :: ch2)
                                  :: choices)) :: top2))
     = inl s)
  /\ (forall s top1 top2 c1 c2 cands ct1 ct2 p1 p2 parts,
     ~ In (t "candidates") (map fst top1) -> ~ In (t "content") (map fst c1) ->
     ~ In (t "parts") (map fst ct1) -> ~ In (t "text") (map fst p1) ->
     parse_response (t "gemini")
       (VObject (top1 ++ (t "candidates",
                          VArray (VObject (c1 ++ (t "content",
                                                  VObject (ct1 ++ (t "parts",
                                                                   VArray (VObject (p1 ++ (t "text", VString s) :: p2)
                                                                           :: parts)) :: ct2)) :: c2)
                                  :: cands)) :: top2))
     = inl s).
Proof.
  split.
  - intros s top1 top2 ch1 ch2 choices msg1 msg2 H1 H2 H3; unfold parse_response.
    rewrite str_eqb_refl, index_key_present by assumption; cbn [index_nth nth].
    rewrite !index_key_present by assumption; reflexivity.
  - intros s top1 top2 c1 c2 cands ct1 ct2 p1 p2 parts H1 H2 H3 H4; unfold parse_response.
    change (str_eqb (t "gemini") (t "openai")) with false; cbv iota.
    rewrite str_eqb_refl; cbn [index_nth nth].
    rewrite index_key_present by assumption; cbn [index_nth nth].
    rewrite !index_key_present by assumption; cbn [index_nth nth].
    rewrite index_key_present by assumption; reflexivity.
Qed.

Lemma parse_response_round_trip_witness :
  parse_response (t "openai") (openai_answer (t "hi")) = inl (t "hi")
  /\ parse_response (t "gemini") (gemini_answer (t "hi")) = inl (t "hi").
Proof.
  split.
  - apply (proj1 parse_response_round_trip (t "hi") [(t "id", VString (t "x"))] []
             [(t "index", VNumber 0)] [] [] [(t "role", VString (t "assistant"))] []);
      vm_compute; intros H; repeat (destruct H as [H|H]; [discriminate|]); exact H.
  - apply (proj2 parse_response_round_trip (t "hi") [] [] [] [] [] []
             [(t "role", VString (t "model"))] [] [] []);
      vm_compute; intros H; repeat (destruct H as [H|H]; [discriminate|]); exact H.
Defined.

(** An unsupported provider, or an answer without choices (candidates) or with an empty list of them, gives a parse error. *)
Theorem parse_response_failures : forall provider data,
  (str_eqb provider (t "openai") = false -> str_eqb provider (t "gemini") = false ->
   parse_response provider data = inr (ParseFailed provider))
  /\ (index_key (t "choices") data = VNull \/ index_key (t "choices") data = VArray [] ->
      parse_response (t "openai") data = inr (ParseFailed (t "openai")))
  /\ (index_key (t "candidates") data = VNull \/ index_key (t "candidates") data = VArray [] ->
      parse_response (t "gemini") data = inr (ParseFailed (t "gemini"))).
Proof.
  intros provider data; split; [|split].
  - intros H1 H2; unfold parse_response; rewrite H1, H2; reflexivity.
  - intros [H|H]; unfold parse_response; rewrite str_eqb_refl, H; reflexivity.
  - intros [H|H]; unfold parse_response; rewrite str_eqb_refl, H; reflexivity.
Qed.

Lemma sanitize_path_output_safe_witness :
  sanitize_path (t " .\src\main.rs ") = Some (t "src/main.rs")
  /\ ~ In 92%N (t "src/main.rs").
Proof.
  assert (E : sanitize_path (t " .\src\main.rs ") = Some (t "src/main.rs"))
    by (vm_compute; reflexivity).
  split; [exact E|].
  exact (proj2 (proj2 (proj2 (sanitize_path_output_safe _ _ E)))).
Defined.

Lemma code_stage_paths_safe_witness :
  In (t "src/main.x") (map path (fst (package_code_files scenario_input [])))
  /\ has_parent_dir (t "src/main.x") = false.
Proof.
  assert (H : In (t "src/main.x") (map path (fst (package_code_files scenario_input []))))
    by (vm_compute; left; reflexivity).
  split; [exact H|].
  exact (proj1 (proj2 (proj2 (code_stage_paths_safe scenario_input _ H)))).
Defined.

Lemma gitignore_lookup_failure_uses_default_witness :
  exists r', package_infrastructure_files broken_gitignore_tera (spec_of_type (t "cli")) []
             = Ok r'
             /\ lookup (t ".gitignore") r' = Some default_gitignore.
Proof.
  eapply (gitignore_lookup_failure_uses_default broken_gitignore_tera (spec_of_type (t "cli"))
            [] _ _ _ (RenderFailed "rust/gitignore.template")); reflexivity.
Defined.

Lemma infrastructure_keeps_entries_witness :
  exists r', package_infrastructure_files full_tera (spec_of_type (t "cli"))
               [mkFile (t "src/main.x") (t "body")] = Ok r'
             /\ nth_error r' 0 = Some (mkFile (t "src/main.x") (t "body")).
Proof.
  set (r' := match package_infrastructure_files full_tera (spec_of_type (t "cli"))
                     [mkFile (t "src/main.x") (t "body")] with Ok r => r | Err _ => [] end).
  assert (E : package_infrastructure_files full_tera (spec_of_type (t "cli"))
                [mkFile (t "src/main.x") (t "body")] = Ok r') by (vm_compute; reflexivity).
  exists r'; split; [exact E|].
  apply (proj1 (proj2 (infrastructure_keeps_entries _ _ _ _ E))); [reflexivity|].
  vm_compute; intros H; repeat (destruct H as [H|H]; [discriminate|]); exact H.
Defined.

Lemma handle_generate_unique_iff_no_manifest_block_witness :
  handle_generate full_tera (spec_of_type (t "library")) scenario_input = Ok scenario_final
  /\ NoDup (map path scenario_final).
Proof.
  assert (E : handle_generate full_tera (spec_of_type (t "library")) scenario_input
              = Ok scenario_final) by (vm_compute; reflexivity).
  split; [exact E|].
  apply (handle_generate_unique_iff_no_manifest_block _ _ _ _ E).
  vm_compute; intros H; repeat (destruct H as [H|H]; [discriminate|]); exact H.
Defined.

Lemma handle_generate_has_infrastructure_witness :
  handle_generate full_tera (spec_of_type (t "library")) scenario_input = Ok scenario_final
  /\ In (t "Makefile") (map path scenario_final).
Proof.
  assert (E : handle_generate full_tera (spec_of_type (t "library")) scenario_input
              = Ok scenario_final) by (vm_compute; reflexivity).
  split; [exact E|].
  apply (handle_generate_has_infrastructure _ _ _ _ E).
  vm_compute; right; left; reflexivity.
Defined.

Lemma required_templates_guarantee_run_witness :
  ensure_required_templates server_tera = inl tt
  /\ exists final, handle_generate server_tera (spec_of_type (t "service")) scenario_input
                   = Ok final.
Proof.
  assert (E : ensure_required_templates server_tera = inl tt) by (vm_compute; reflexivity).
  split; [exact E|].
  apply (required_templates_guarantee_run _ _ _ E).
  intros n _; discriminate.
Defined.

Lemma parse_response_failures_witness :
  parse_response (t "anthropic") (openai_answer (t "hi")) = inr (ParseFailed (t "anthropic"))
  /\ parse_response (t "openai") (VObject [(t "choices", VArray [])])
     = inr (ParseFailed (t "openai")).
Proof.
  split.
  - apply (proj1 (parse_response_failures (t "anthropic") (openai_answer (t "hi"))));
      vm_compute; reflexivity.
  - apply (proj1 (proj2 (parse_response_failures (t "openai")
                           (VObject [(t "choices", VArray [])])))).
    right; vm_compute; reflexivity.
Defined.

Lemma hex_val_digit : forall d, (d < 16)%N -> hex_val (hex_digit d) = d.
Proof.
  intros d Hd; unfold hex_digit, hex_val.
  destruct (d <? 10)%N eqn:E.
  - apply N.ltb_lt in E.
    replace ((48 <=? 48 + d) && (48 + d <=? 57))%N with true
      by (symmetry; apply andb_true_intro; split; apply N.leb_le; lia).
    lia.
  - apply N.ltb_ge in E.
    replace ((48 <=? 87 + d) && (87 + d <=? 57))%N with false
      by (symmetry; apply andb_false_intro2; apply N.leb_gt; lia).
    lia.
Qed.

Lemma read_escape : forall c rest,
  read_str (json_escape_char c ++ rest)
  = option_map (fun '(x, r) => (c :: x, r)) (read_str rest).
Proof.
  intros c rest; unfold json_escape_char.
  destruct (N.eqb c 34) eqn:E1; [apply N.eqb_eq in E1; subst; reflexivity|].
  destruct (N.eqb c 92) eqn:E2; [apply N.eqb_eq in E2; subst; reflexivity|].
  destruct (N.eqb c 8) eqn:E3; [apply N.eqb_eq in E3; subst; reflexivity|].
  destruct (N.eqb c 9) eqn:E4; [apply N.eqb_eq in E4; subst; reflexivity|].
  destruct (N.eqb c 10) eqn:E5; [apply N.eqb_eq in E5; subst; reflexivity|].
  destruct (N.eqb c 12) eqn:E6; [apply N.eqb_eq in E6; subst; reflexivity|].
  destruct (N.eqb c 13) eqn:E7; [apply N.eqb_eq in E7; subst; reflexivity|].
  destruct (c <? 32)%N eqn:E8.
  - apply N.ltb_lt in E8.
    change (t "\u00") with [92%N; 117%N; 48%N; 48%N]; simpl app.
    cbn [read_str N.eqb Pos.eqb].
    rewrite !hex_val_digit.
    + replace (4096 * hex_val 48 + 256 * hex_val 48 + 16 * (c / 16) + c mod 16)%N with c
        by (change (hex_val 48) with 0%N; pose proof (N.div_mod c 16 ltac:(lia)); lia).
      reflexivity.
    + apply N.mod_lt; lia.
    + apply N.Div0.div_lt_upper_bound; lia.
  - simpl; rewrite E1, E2; reflexivity.
Qed.

Lemma read_str_escaped : forall s rest,
  read_str (flat_map json_escape_char s ++ 34%N :: rest) = Some (s, rest).
Proof.
  induction s as [|c s IH]; intros rest; [reflexivity|].
  simpl flat_map; rewrite <- app_assoc, read_escape, IH; reflexivity.
Qed.

Lemma manifest_entry_shape : forall p rest,
  manifest_entry p ++ rest
  = t "{" ++ json_string (t "path") ++ t ":" ++ [34%N]
      ++ flat_map json_escape_char p ++ 34%N :: 125%N :: rest.
Proof.
  intros p rest; unfold manifest_entry, json_string.
  rewrite <- !app_assoc; reflexivity.
Qed.

Lemma join_entries_inj : forall ps qs,
  join (t ",") (map manifest_entry ps) = join (t ",") (map manifest_entry qs) -> ps = qs.
Proof.
  assert (Hne : forall p, manifest_entry p <> []).
  { intros p H; unfold manifest_entry in H; discriminate. }
  assert (Hsplit : forall p ps,
            join (t ",") (map manifest_entry (p :: ps))
            = manifest_entry p ++ match ps with [] => [] | _ => 44%N :: join (t ",") (map manifest_entry ps) end).
  { intros p [|p' ps]; simpl; [rewrite app_nil_r|]; reflexivity. }
  induction ps as [|p ps IH]; intros [|q qs] H.
  - reflexivity.
  - rewrite Hsplit in H; simpl in H.
    destruct (manifest_entry q) eqn:Eq; [exfalso; apply (Hne q Eq)|discriminate].
  - rewrite Hsplit in H; simpl in H.
    destruct (manifest_entry p) eqn:Ep; [exfalso; apply (Hne p Ep)|discriminate].
  - rewrite !Hsplit, !manifest_entry_shape in H.
    apply app_inv_head in H; apply app_inv_head in H; apply app_inv_head in H.
    injection H as H.
    pose proof (read_str_escaped p (125%N :: match ps with [] => [] | _ => 44%N :: join (t ",") (map manifest_entry ps) end)) as Rp.
    pose proof (read_str_escaped q (125%N :: match qs with [] => [] | _ => 44%N :: join (t ",") (map manifest_entry qs) end)) as Rq.
    rewrite H, Rq in Rp; injection Rp as Hpq Hrest; subst q.
    f_equal.
    destruct ps as [|p' ps], qs as [|q' qs]; try reflexivity; try discriminate.
    apply (f_equal (skipn 1)) in Hrest; cbn [skipn] in Hrest; symmetry in Hrest.
    apply IH in Hrest; exact Hrest.
Qed.

(** The manifest JSON determines the list of paths: distinct path lists give distinct manifests. *)
Theorem manifest_json_injective : forall ps qs,
  manifest_json ps = manifest_json qs -> ps = qs.
Proof.
  intros ps qs H; unfold manifest_json in H.
  change (fun p => t "{" ++ json_string (t "path") ++ t ":" ++ json_string p ++ t "}")
    with manifest_entry in H.
  apply app_inv_head in H; apply app_inv_head in H; apply app_inv_head in H.
  apply app_inv_tail in H; apply join_entries_inj; exact H.
Qed.

(** When the model output has an accepted block, the run skips the bootstrap skeleton. *)
Theorem blocks_skip_bootstrap : forall tera spec out,
  slice_file_blocks out <> [] ->
  handle_generate tera spec out
  = (let* r1 := package_infrastructure_files tera spec (fst (package_code_files out [])) in
     Ok (append_manifest r1)).
Proof.
  intros tera spec out H; unfold handle_generate, package_code_files.
  destruct (slice_file_blocks out) as [|b bs]; [contradiction|].
  cbn [length Nat.eqb fst].
  destruct (package_infrastructure_files _ _ _); reflexivity.
Qed.

Lemma no_cr_app : forall a b, no_cr (a ++ b) = no_cr a && no_cr b.
Proof. intros a b; unfold no_cr; rewrite existsb_app, negb_orb; reflexivity. Qed.

Lemma escape_no_cr : forall c, no_cr (json_escape_char c) = true.
Proof.
  intros c; unfold json_escape_char.
  destruct (N.eqb c 34); [reflexivity|].
  destruct (N.eqb c 92); [reflexivity|].
  destruct (N.eqb c 8); [reflexivity|].
  destruct (N.eqb c 9); [reflexivity|].
  destruct (N.eqb c 10); [reflexivity|].
  destruct (N.eqb c 12); [reflexivity|].
  destruct (N.eqb c 13) eqn:E; [reflexivity|].
  destruct (c <? 32)%N eqn:L.
  - assert (Hd : forall d, N.eqb 13 (hex_digit d) = false)
      by (intros d; apply N.eqb_neq; unfold hex_digit; destruct (d <? 10)%N; lia).
    unfold no_cr; rewrite existsb_app.
    change (existsb (N.eqb 13) (t "\u00")) with false; cbn [existsb orb].
    rewrite !Hd; reflexivity.
  - unfold no_cr; cbn [existsb]; rewrite N.eqb_sym, E; reflexivity.
Qed.

Lemma json_string_no_cr : forall s, no_cr (json_string s) = true.
Proof.
  intros s; unfold json_string; rewrite !no_cr_app; simpl.
  induction s as [|c s IH]; [reflexivity|].
  simpl flat_map; rewrite no_cr_app, escape_no_cr; exact IH.
Qed.

Lemma manifest_json_no_cr : forall ps, no_cr (manifest_json ps) = true.
Proof.
  intros ps; unfold manifest_json.
  change (fun p => t "{" ++ json_string (t "path") ++ t ":" ++ json_string p ++ t "}")
    with manifest_entry.
  assert (He : forall p, no_cr (manifest_entry p) = true)
    by (intros p; unfold manifest_entry; rewrite !no_cr_app, !json_string_no_cr; reflexivity).
  assert (Hj : no_cr (join (t ",") (map manifest_entry ps)) = true).
  { induction ps as [|p ps IH]; [reflexivity|].
    destruct ps as [|p' ps]; [apply He|].
    change (join (t ",") (map manifest_entry (p :: p' :: ps)))
      with (manifest_entry p ++ t "," ++ join (t ",") (map manifest_entry (p' :: ps))).
    rewrite !no_cr_app, He, IH; reflexivity. }
  rewrite !no_cr_app, json_string_no_cr, Hj; reflexivity.
Qed.

(** Sanitized content never contains a carriage return. *)
Theorem sanitize_no_cr : forall p c,
  existsb (N.eqb 13) (sanitize_nonmarkdown_output p c) = false.
Proof. exact sanitize_no_cr_aux. Qed.

Lemma sanitize_output_no_cr : forall p c, no_cr (sanitize_nonmarkdown_output p c) = true.
Proof. intros p c; unfold no_cr; rewrite sanitize_no_cr_aux; reflexivity. Qed.

Lemma in_upsert_file : forall fs p c f,
  In f (upsert_file fs p c) -> In f fs \/ content f = c.
Proof.
  induction fs as [|g fs IH]; intros p c f H.
  - destruct H as [H|[]]; subst; right; reflexivity.
  - rewrite upsert_file_cons in H.
    destruct (str_eqb (path g) p); destruct H as [H|H].
    + subst; right; reflexivity.
    + left; right; exact H.
    + subst; left; left; reflexivity.
    + apply IH in H as [H|H]; [left; right; exact H|right; exact H].
Qed.

Lemma upsert_all_no_cr : forall fs p c,
  all_no_cr fs -> no_cr c = true -> all_no_cr (upsert_file fs p c).
Proof.
  intros fs p c H Hc f Hf; apply in_upsert_file in Hf as [Hf|Hf]; [apply H, Hf|].
  rewrite Hf; exact Hc.
Qed.

Lemma slice_blocks_from_contents : forall out hs q c,
  In (q, c) (slice_blocks_from out hs) -> no_cr c = true.
Proof.
  intros out hs; induction hs as [|[[st en] raw] hs IH]; intros q c H; [destruct H|].
  simpl in H.
  destruct (sanitize_path raw) as [p|]; [|eapply IH; eassumption].
  destruct H as [H|H]; [inversion H; subst; apply sanitize_output_no_cr|eapply IH; eassumption].
Qed.

Lemma code_stage_no_cr : forall out, all_no_cr (fst (package_code_files out [])).
Proof.
  intros out; unfold package_code_files; simpl.
  assert (Hb : forall q c, In (q, c) (slice_file_blocks out) -> no_cr c = true)
    by (intros q c; apply slice_blocks_from_contents).
  assert (H0 : all_no_cr []) by (intros f []).
  revert H0 Hb; generalize (@nil File) as r; generalize (slice_file_blocks out) as blocks.
  induction blocks as [|[p c] blocks IH]; intros r H0 Hb; simpl; [exact H0|].
  apply IH; [apply upsert_all_no_cr; [exact H0|eapply Hb; left; reflexivity]|].
  intros q c' Hq; eapply Hb; right; exact Hq.
Qed.

Lemma infrastructure_loop_no_cr : forall tera spec plan r r',
  all_no_cr r -> infrastructure_loop tera spec plan r = Ok r' -> all_no_cr r'.
Proof.
  intros tera spec plan; induction plan as [|[o cs] plan IH]; intros r r' H E; simpl in E.
  - inversion E; subst; exact H.
  - destruct (if str_eqb o (t ".gitignore") then _ else _) as [s|e]; simpl in E;
      [|discriminate].
    eapply IH; [apply upsert_all_no_cr; [exact H|apply sanitize_output_no_cr]|exact E].
Qed.

Lemma bootstrap_loop_no_cr : forall tera spec files r n r' n',
  all_no_cr r -> bootstrap_loop tera spec files r n = Ok (r', n') -> all_no_cr r'.
Proof.
  intros tera spec files; induction files as [|[p tpl] files IH];
    intros r n r' n' H E; simpl in E.
  - inversion E; subst; exact H.
  - destruct (negb (has_template tera tpl)); [eapply IH; eauto|].
    destruct (render tera tpl spec); [|discriminate].
    eapply IH; [apply upsert_all_no_cr; [exact H|apply sanitize_output_no_cr]|exact E].
Qed.

(** No file of a successful run's artifact, the manifest included, contains a carriage return. *)
Theorem handle_generate_no_cr : forall tera spec out final,
  handle_generate tera spec out = Ok final ->
  forall f, In f final -> existsb (N.eqb 13) (content f) = false.
Proof.
  intros tera spec out final E.
  assert (Hall : all_no_cr final).
  { unfold handle_generate in E.
    pose proof (code_stage_no_cr out) as H0.
    destruct (package_code_files out []) as [r0 n]; simpl fst in H0.
    destruct (package_infrastructure_files tera spec r0) as [r1|e] eqn:E1; cbn [bind] in E;
      [|discriminate].
    pose proof (infrastructure_loop_no_cr _ _ _ _ _ H0 E1) as H1.
    assert (Hm : forall r, all_no_cr r -> all_no_cr (append_manifest r)).
    { intros r Hr f Hf; unfold append_manifest in Hf; apply in_app_or in Hf as [Hf|[Hf|[]]];
        [apply Hr, Hf|subst f; apply manifest_json_no_cr]. }
    destruct (Nat.eqb n 0).
    - unfold package_bootstrap_files in E.
      destruct (bootstrap_loop _ _ _ r1 0) as [[r2 n2]|e] eqn:E2; cbn [bind fst] in E;
        [|discriminate].
      inversion E; subst final; apply Hm; eapply bootstrap_loop_no_cr; eassumption.
    - cbn [bind] in E; inversion E; subst final; apply Hm, H1. }
  intros f Hf; apply Hall in Hf; unfold no_cr in Hf; apply negb_true_iff in Hf; exact Hf.
Qed.

Lemma handle_generate_no_cr_witness :
  handle_generate full_tera (spec_of_type (t "library")) scenario_input = Ok scenario_final
  /\ existsb (N.eqb 13) (content (nth 0 scenario_final (mkFile [] []))) = false.
Proof.
  assert (E : handle_generate full_tera (spec_of_type (t "library")) scenario_input
              = Ok scenario_final) by (vm_compute; reflexivity).
  split; [exact E|].
  apply (handle_generate_no_cr _ _ _ _ E).
  apply nth_In; vm_compute; lia.
Defined.

Lemma blocks_skip_bootstrap_witness :
  slice_file_blocks scenario_input <> []
  /\ handle_generate full_tera (spec_of_type (t "library")) scenario_input
     = (let* r1 := package_infrastructure_files full_tera (spec_of_type (t "library"))
                     (fst (package_code_files scenario_input [])) in
        Ok (append_manifest r1)).
Proof.
  assert (H : slice_file_blocks scenario_input <> []) by (vm_compute; discriminate).
  split; [exact H|].
  exact (blocks_skip_bootstrap _ _ _ H).
Defined.

Lemma manifest_json_injective_witness :
  [t "src/main.rs"; t "Cargo.toml"] = [t "src/main.rs"; t "Cargo.toml"].
Proof.
  apply manifest_json_injective; reflexivity.
Defined.


